(** * python-unit-tests: the example programs and their test doubles

    A shallow embedding of the repository's example modules
    (weather classifier, divide, prime check, UserManager, DataBase,
    save_user, the HTTP weather client, UserService and the Flask users
    API) together with the fixture lifecycle and the call recorder their
    test suites rely on.

    Python objects that are mutated in place (dictionaries, recorders)
    are threaded explicitly through a state-and-exception monad: a call
    returns its outcome (a value or a raised exception) together with
    the state the object is left in, so that a raise never hides what
    had already been written. *)

From Stdlib Require Import ZArith String Ascii List Bool Lia.
From Stdlib Require Import SpecFloat.
From stdpp Require Import gmap strings list fin_maps pretty.

Local Open Scope string_scope.
Local Open Scope list_scope.
Local Open Scope Z_scope.

(** ** Python values, exceptions and outcomes *)

Module Py.

(** The values that travel through the examples as call arguments,
    JSON bodies and stored records: [None], booleans, ints, strings,
    tuples, lists and string-keyed dicts. A dict is a finite map, so two
    dicts with the same items are the same value whatever the order they
    were written in, as [==] has it in Python. *)
#[warnings="-register-all"]
Inductive value :=
  | VNone
  | VBool (b : bool)
  | VInt (z : Z)
  | VStr (s : string)
  | VTuple (l : list value)
  | VList (l : list value)
  | VDict (d : gmap string value).

Fixpoint value_size (v : value) : nat :=
  match v with
  | VTuple l | VList l => S (foldr (λ x acc, value_size x + acc)%nat 0%nat l)
  | VDict d => S (map_fold (λ _ x acc, value_size x + acc)%nat 0%nat d)
  | _ => 1
  end.

(** Deep equality, by recursion on the first value. *)
Fixpoint value_eqb (x y : value) {struct x} : bool :=
  let list_eqb :=
    fix go (l1 l2 : list value) : bool :=
      match l1, l2 with
      | [], [] => true
      | a :: l1, b :: l2 => value_eqb a b && go l1 l2
      | _, _ => false
      end in
  match x, y with
  | VNone, VNone => true
  | VBool a, VBool b => bool_decide (a = b)
  | VInt a, VInt b => bool_decide (a = b)
  | VStr a, VStr b => bool_decide (a = b)
  | VTuple l1, VTuple l2 => list_eqb l1 l2
  | VList l1, VList l2 => list_eqb l1 l2
  | VDict d1, VDict d2 =>
      bool_decide (dom d2 ⊆ dom d1) &&
      map_fold (λ k v acc,
        acc && match d2 !! k with
               | Some w => value_eqb v w
               | None => false
               end) true d1
  | _, _ => false
  end.

(** Truth value of an object, as [if x] and [not x] take it. *)
Definition truthy (v : value) : bool :=
  match v with
  | VNone => false
  | VBool b => b
  | VInt z => negb (z =? 0)%Z
  | VStr s => negb (bool_decide (s = ""))
  | VTuple l | VList l => negb (bool_decide (l = []))
  | VDict d => negb (bool_decide (d = ∅))
  end.

(** One recorded invocation: positional and named arguments. *)
Record call := Call { args : list value; kwargs : gmap string value }.

Definition call_eqb (c1 c2 : call) : bool :=
  value_eqb (VTuple (args c1)) (VTuple (args c2)) &&
  value_eqb (VDict (kwargs c1)) (VDict (kwargs c2)).

(** The exception classes the examples raise, each with its message,
    and the two failures of the test doubles: [AssertionMismatch]
    carries the expected call and the calls actually recorded,
    [UnknownAttribute] the attribute name that was refused. *)
Inductive exn :=
  | ValueError (msg : string)
  | KeyError (msg : string)
  | TypeError (msg : string)
  | OverflowError (msg : string)
  | ZeroDivisionError (msg : string)
  | Exception (msg : string)
  | AssertionError (msg : string)
  | AssertionMismatch (expected : call) (actual : list call)
  | UnknownAttribute (name : string).

Definition exn_message (e : exn) : string :=
  match e with
  | ValueError m | KeyError m | TypeError m | OverflowError m
  | ZeroDivisionError m | Exception m | AssertionError m => m
  | AssertionMismatch _ _ => "expected call not found"
  | UnknownAttribute name => ("Mock object has no attribute " ++ name)%string
  end.

(** [pytest.raises(..., match=pat)] searches the message for [pat]; the
    patterns of the examples are plain text, so this is a substring
    search. *)
Fixpoint str_contains (pat s : string) : bool :=
  String.prefix pat s ||
  match s with
  | EmptyString => false
  | String _ s' => str_contains pat s'
  end.

(** Outcome of evaluating a Python expression or call. *)
Inductive result (A : Type) :=
  | Ok (a : A)
  | Raise (e : exn).
Arguments Ok {A} a.
Arguments Raise {A} e.

Definition is_ok {A} (r : result A) : bool :=
  match r with Ok _ => true | Raise _ => false end.

Definition rbind {A B} (r : result A) (k : A → result B) : result B :=
  match r with
  | Ok a => k a
  | Raise e => Raise e
  end.

(** [data[key]] with a string key. *)
Definition subscript (data : value) (key : string) : result value :=
  match data with
  | VDict d =>
      match d !! key with
      | Some v => Ok v
      | None => Raise (KeyError key)
      end
  | VStr _ => Raise (TypeError "string indices must be integers")
  | VTuple _ | VList _ =>
      Raise (TypeError "indices must be integers or slices, not str")
  | VNone | VBool _ | VInt _ => Raise (TypeError "object is not subscriptable")
  end.

(** Computations over a mutable object of type [S] that may raise. The
    state component is the object as the call leaves it, also when the
    call raises. *)
Definition M (S A : Type) : Type := S → result A * S.

Definition ret {S A} (a : A) : M S A := λ s, (Ok a, s).
Definition raise {S A} (e : exn) : M S A := λ s, (Raise e, s).
Definition bind {S A B} (m : M S A) (k : A → M S B) : M S B :=
  λ s, match m s with
       | (Ok a, s') => k a s'
       | (Raise e, s') => (Raise e, s')
       end.
Definition get {S} : M S S := λ s, (Ok s, s).
Definition put {S} (s : S) : M S unit := λ _, (Ok tt, s).
Definition lift {S A} (r : result A) : M S A := λ s, (r, s).

(** [assert cond] *)
Definition assert {S} (cond : bool) : M S unit :=
  if cond then ret tt else raise (AssertionError "assert").

(** [with pytest.raises(kind, match=pat): block]: passes when the block
    raises an exception of the expected kind whose message contains
    [pat]; an exception of another kind goes through, and the block
    raising nothing, or a message without [pat], is a failure. *)
Definition raises {S A} (kind : exn → bool) (pat : string) (block : M S A)
    : M S unit :=
  λ s, match block s with
       | (Raise e, s') =>
           if kind e then
             if str_contains pat (exn_message e) then (Ok tt, s')
             else (Raise (AssertionError "Regex pattern did not match"), s')
           else (Raise e, s')
       | (Ok _, s') => (Raise (AssertionError "DID NOT RAISE"), s')
       end.

Definition is_ValueError (e : exn) : bool :=
  match e with ValueError _ => true | _ => false end.

End Py.

Import Py.

(** Sequencing is written [x ← c; k] and [c;; k]. *)
Global Instance result_ret : MRet result := λ A, @Ok A.
Global Instance result_bind : MBind result := λ A B k r, rbind r k.
Global Instance M_ret {S} : MRet (M S) := λ A, @ret S A.
Global Instance M_bind {S} : MBind (M S) := λ A B k m, bind m k.

(** ** Python numbers: ints and binary64 floats *)

Module Binary64.

(** A Python float is an IEEE 754 binary64: 53 bits of precision,
    exponents below 1024. *)
Definition prec : Z := 53.
Definition emax : Z := 1024.

Abbreviation float := spec_float.


(** [float(n)] for an int [n]: the nearest float, ties to even;
    [OverflowError] when [n] is beyond the range of the format. *)
Definition of_int (n : Z) : result float :=
  match binary_normalize prec emax n 0 false with
  | S754_infinity _ => Raise (OverflowError "int too large to convert to float")
  | f => Ok f
  end.

(** An int as an exact operand, before any rounding. *)
Definition exact (n : Z) : float :=
  match n with
  | Z0 => S754_zero false
  | Zpos p => S754_finite false p 0
  | Zneg p => S754_finite true p 0
  end.

Definition zero : float := S754_zero false.

(** [x == 0] on floats; true of both zeros, false of NaN. *)
Definition is_zero (f : float) : bool := SFeqb f zero.

(** [a / b] on two ints: the float nearest to the quotient, whatever the
    size of the operands; [OverflowError] when it is too large. *)
Definition int_truediv (a b : Z) : result float :=
  if b =? 0 then Raise (ZeroDivisionError "division by zero")
  else match SFdiv prec emax (exact a) (exact b) with
       | S754_infinity _ =>
           Raise (OverflowError "integer division result too large for a float")
       | q => Ok q
       end.

(** [a / b] on two floats. *)
Definition float_truediv (a b : float) : result float :=
  if is_zero b then Raise (ZeroDivisionError "float division by zero")
  else Ok (SFdiv prec emax a b).

(** [x ** 0.5] for a float [x >= 0], taken as the correctly rounded
    square root; a negative base gives a complex number, which is
    outside these values. *)
Definition pow_half (x : float) : result float :=
  match x with
  | S754_finite true _ _ | S754_infinity true =>
      Raise (TypeError "complex result")
  | _ => Ok (SFsqrt prec emax x)
  end.

(** [int(x)]: truncation towards zero. *)
Definition to_int (x : float) : result Z :=
  match x with
  | S754_zero _ => Ok 0
  | S754_finite s m e => Ok (cond_Zopp s (Z.shiftl (Zpos m) e))
  | S754_infinity _ =>
      Raise (OverflowError "cannot convert float infinity to integer")
  | S754_nan => Raise (ValueError "cannot convert float NaN to integer")
  end.


(** A number, as the docstrings have it: int or float. *)
Inductive num :=
  | PyInt (n : Z)
  | PyFloat (x : float).


(** [float(a)] *)
Definition to_float (a : num) : result float :=
  match a with
  | PyInt n => of_int n
  | PyFloat x => Ok x
  end.

(** [a == 0] *)
Definition num_is_zero (a : num) : bool :=
  match a with
  | PyInt n => n =? 0
  | PyFloat x => is_zero x
  end.

(** [a / b] *)
Definition truediv (a b : num) : result float :=
  match a, b with
  | PyInt m, PyInt n => int_truediv m n
  | _, _ =>
      x ← to_float a;
      y ← to_float b;
      float_truediv x y
  end.





End Binary64.

(** ** 1-simple-functions-example/main.py *)

Module SimpleFunctions.
Import Binary64.

(** The float 20.0, which the int 20 is compared as. *)
Definition twenty : float := S754_finite false 5629499534213120 (-48).

(** [get_weather(temp)] *)
Definition get_weather (temp : num) : result string :=
  x ← to_float temp;
  Ok (if SFltb twenty x then "Hot" else "Cold").

(** [divide(a, b)] *)
Definition divide (a b : num) : result float :=
  if num_is_zero b then Raise (ValueError "Cannot divide by zero")
  else truediv a b.



End SimpleFunctions.

(** ** 4-parametrized-testing/main.py *)

Module ParametrizedTesting.
Import Binary64.

(** The loop [for i in range(...): if n % i == 0: return False], then
    [return True]. *)
Fixpoint no_divisor (n : Z) (candidates : list Z) : bool :=
  match candidates with
  | [] => true
  | i :: rest => if n mod i =? 0 then false else no_divisor n rest
  end.

(** [range(lo, hi)] *)
Definition range (lo hi : Z) : list Z := seqZ lo (hi - lo).

(** [is_prime(n)] *)
Definition is_prime (n : Z) : result bool :=
  if n <=? 1 then Ok false
  else
    x ← of_int n;
    root ← pow_half x;
    bound ← to_int root;
    Ok (no_divisor n (range 2 (bound + 1))).

End ParametrizedTesting.

(** ** 2-fixtures-setup-example/main.py: UserManager *)

Module FixturesSetup.

(** [self.users], a dict from username to email. *)
Record UserManager := { users : gmap string string }.

(** [UserManager()] *)
Definition init : UserManager := {| users := ∅ |}.

(** [add_user(self, username, email)] *)
Definition add_user (username email : string) : M UserManager bool :=
  self ← get;
  if bool_decide (username ∈ dom (users self))
  then raise (ValueError "User already exists")
  else put {| users := <[username := email]> (users self) |};;
       ret true.

(** [__getitem__(self, username)]: [self.users.get(username, None)];
    Python's [None] is [None] of the option type. *)
Definition getitem (username : string) : M UserManager (option string) :=
  self ← get;
  ret (users self !! username).

(** A test body is a sequence of calls on the manager; a raised
    exception is caught by the caller ([pytest.raises]) and the script
    goes on with the object as the call left it. *)
Inductive call :=
  | AddUser (username email : string)
  | GetItem (username : string).

Definition exec (c : call) (m : UserManager) : UserManager :=
  match c with
  | AddUser u e => snd (add_user u e m)
  | GetItem u => snd (getitem u m)
  end.

Definition exec_all (cs : list call) (m : UserManager) : UserManager :=
  foldl (λ m c, exec c m) m cs.

(** The usernames a script passes to [add_user]. *)
Definition added (cs : list call) : list string :=
  omap (λ c, match c with AddUser u _ => Some u | GetItem _ => None end) cs.

End FixturesSetup.

(** ** 3-fixtures-teardown/db.py: DataBase *)

Module FixturesTeardown.

(** [self.data], a dict from user id to name. *)
Record DataBase := { data : gmap Z string }.

(** [DataBase()] *)
Definition init : DataBase := {| data := ∅ |}.

(** [add_user(self, user_id, name)] *)
Definition add_user (user_id : Z) (name : string) : M DataBase unit :=
  self ← get;
  if bool_decide (user_id ∈ dom (data self))
  then raise (ValueError "User ID already exists")
  else put {| data := <[user_id := name]> (data self) |}.

(** [__getitem__(self, user_id)] *)
Definition getitem (user_id : Z) : M DataBase (option string) :=
  self ← get;
  ret (data self !! user_id).

(** [__delitem__(self, user_id)] *)
Definition delitem (user_id : Z) : M DataBase unit :=
  self ← get;
  if bool_decide (user_id ∈ dom (data self))
  then put {| data := delete user_id (data self) |}
  else raise (KeyError "User ID not found").

(** [database.data.clear()] *)
Definition clear (database : DataBase) : DataBase := {| data := ∅ |}.

(** *** test_db.py: the test bodies, over the database the fixture
    yields *)

Definition test_add_user : M DataBase unit :=
  add_user 1 "Alice";;
  x ← getitem 1;
  assert (bool_decide (x = Some "Alice")).

Definition test_add_existing_user : M DataBase unit :=
  add_user 1 "Alice";;
  raises is_ValueError "User ID already exists" (add_user 1 "Bob").

Definition test_delete_user : M DataBase unit :=
  add_user 1 "Alice";;
  delitem 1;;
  x ← getitem 1;
  assert (bool_decide (x = None)).

End FixturesTeardown.

(** ** The fixture lifecycle *)

Module Fixture.

Section Resolver.

(** The type of the objects fixtures produce. *)
Context {V : Type}.

(** Modelled from the spec: the fixture machinery that drives a
    generator fixture ([pytest.fixture]) is not part of the sources; a
    provider is the two-phase form of a fixture function: the code up to
    the yield point, which produces the value, and the optional code
    after it, which runs on that same object. *)
Record FixtureProvider := {
  setup : V;
  teardown : option (V → V)
}.

(** Modelled from the spec: the per-test states of the resolver. *)
Inductive phase := Unresolved | SettingUp | Ready | TearingDown | Done.

(** Modelled from the spec: the outcome of one test invocation. *)
Inductive outcome :=
  | Passed
  | Failed (e : exn)
  | Errored (fixture_name : string).

Inductive event :=
  | EvSetup (name : string)
  | EvBody
  | EvTeardown (name : string).


(** A test declares the fixtures it requests by name; its body works on
    the objects bound to these names and may mutate them. *)
Record TestCase := {
  deps : list string;
  body : M (gmap string V) unit
}.

(** Modelled from the spec: the state of the resolver during one test
    invocation. [live] holds the fixtures that are set up, the latest
    first; [env] binds each to its object, shared by the test body and
    the teardown code; [log] is what ran so far, in order. *)
Record resolver := {
  ph : phase;
  todo : list string;
  live : list string;
  env : gmap string V;
  log : list event;
  verdict : option outcome
}.

Variable registry : gmap string FixtureProvider.
Variable t : TestCase.

Definition start : resolver :=
  {| ph := Unresolved; todo := []; live := []; env := ∅; log := [];
     verdict := None |}.

Definition run_teardown (name : string) (e : gmap string V) : gmap string V :=
  match registry !! name ≫= teardown with
  | Some td => alter td name e
  | None => e
  end.

(** Modelled from the spec: one transition of the state machine
    Unresolved -> Setting Up -> Ready -> Tearing Down -> Done. A
    fixture that cannot be found marks the test as errored and skips the
    body; what was set up before is still torn down. *)
Definition step (r : resolver) : resolver :=
  match ph r with
  | Unresolved =>
      {| ph := SettingUp; todo := deps t; live := live r; env := env r;
         log := log r; verdict := verdict r |}
  | SettingUp =>
      match todo r with
      | [] =>
          {| ph := Ready; todo := []; live := live r; env := env r;
             log := log r; verdict := verdict r |}
      | name :: rest =>
          match registry !! name with
          | Some f =>
              {| ph := SettingUp; todo := rest; live := name :: live r;
                 env := <[name := setup f]> (env r);
                 log := log r ++ [EvSetup name]; verdict := verdict r |}
          | None =>
              {| ph := TearingDown; todo := rest; live := live r;
                 env := env r; log := log r;
                 verdict := Some (Errored name) |}
          end
      end
  | Ready =>
      let '(res, env') := body t (env r) in
      {| ph := TearingDown; todo := todo r; live := live r; env := env';
         log := log r ++ [EvBody];
         verdict := Some match res with
                         | Ok _ => Passed
                         | Raise e => Failed e
                         end |}
  | TearingDown =>
      match live r with
      | [] =>
          {| ph := Done; todo := todo r; live := []; env := env r;
             log := log r; verdict := verdict r |}
      | name :: rest =>
          {| ph := TearingDown; todo := todo r; live := rest;
             env := run_teardown name (env r);
             log := log r ++ [EvTeardown name]; verdict := verdict r |}
      end
  | Done => r
  end.

Fixpoint run (fuel : nat) (r : resolver) : resolver :=
  match fuel with
  | O => r
  | S fuel => run fuel (step r)
  end.

(** The environment after the setup steps of the fixtures [ds]. *)
Definition setup_env (ds : list string) (e : gmap string V) : gmap string V :=
  foldl (λ e name,
    match registry !! name with
    | Some f => <[name := setup f]> e
    | None => e
    end) e ds.

Definition teardown_env (lv : list string) (e : gmap string V) : gmap string V :=
  foldl (λ e name, run_teardown name e) e lv.

(** One test invocation, from resolution to the end of teardown. *)
Definition run_test : resolver :=
  run (2 * length (deps t) + 4) start.

End Resolver.

Arguments FixtureProvider : clear implicits.
Arguments TestCase : clear implicits.
Arguments resolver : clear implicits.

(** *** 3-fixtures-teardown/test_db.py: the [db] fixture

    [database = DataBase(); yield database; database.data.clear()] *)
Definition db : FixtureProvider FixturesTeardown.DataBase :=
  {| setup := FixturesTeardown.init;
     teardown := Some FixturesTeardown.clear |}.

(** *** 2-fixtures-setup-example/test_main.py: [user_manager], a
    fixture that returns its value and has nothing after it *)
Definition user_manager : FixtureProvider FixturesSetup.UserManager :=
  {| setup := FixturesSetup.init; teardown := None |}.

Definition db_registry : gmap string (FixtureProvider FixturesTeardown.DataBase) :=
  {[ "db" := db ]}.

(** A test function with the single parameter [db]: its body runs on the
    object bound to that name. *)
Definition on_db (script : M FixturesTeardown.DataBase unit)
    : TestCase FixturesTeardown.DataBase :=
  {| deps := ["db"];
     body := λ e,
       match e !! "db" with
       | Some database =>
           let '(res, database') := script database in
           (res, <["db" := database']> e)
       | None => (Raise (TypeError "missing argument: db"), e)
       end |}.

End Fixture.

(** ** Call recorders and mocks *)

Module Mock.

(** Modelled from the spec: what a recorder is configured to do when it
    is invoked ([return_value], or [side_effect] set to an error). *)
Inductive behaviour (R : Type) :=
  | Returns (r : R)
  | SideEffect (e : exn).
Arguments Returns {R} r.
Arguments SideEffect {R} e.

(** Modelled from the spec: the call recorder that stands in for a
    callable ([unittest.mock], reached through [mocker], is not part of
    the sources): the ordered history of its calls and its configured
    behaviour. *)
Record Recorder (R : Type) := {
  history : list call;
  configured : behaviour R
}.
Arguments history {R} _.
Arguments configured {R} _.

Definition fresh {R} (r : R) : Recorder R :=
  {| history := []; configured := Returns r |}.

(** Modelled from the spec: [record(args, kwargs)]; the call is
    appended to the history before the configured behaviour is
    applied. *)
Definition record {R} (c : call) : M (Recorder R) R :=
  λ rec,
    let rec' := {| history := history rec ++ [c];
                   configured := configured rec |} in
    match configured rec with
    | Returns r => (Ok r, rec')
    | SideEffect e => (Raise e, rec')
    end.

Definition set_return_value {R} (r : R) (rec : Recorder R) : Recorder R :=
  {| history := history rec; configured := Returns r |}.

Definition set_side_effect {R} (e : exn) (rec : Recorder R) : Recorder R :=
  {| history := history rec; configured := SideEffect e |}.

(** Modelled from the spec: [assert_called_once_with(args, kwargs)]
    succeeds when the history holds exactly one call and that call
    deep-equals the expected one, and fails otherwise with an
    [AssertionMismatch] that carries the expected call and what was
    recorded. *)
Definition assert_called_once_with {R} (expected : call) (rec : Recorder R)
    : result unit :=
  match history rec with
  | [c] =>
      if call_eqb c expected then Ok tt
      else Raise (AssertionMismatch expected [c])
  | h => Raise (AssertionMismatch expected h)
  end.

(** Modelled from the spec: [assert_called_once()] only checks the
    count. *)
Definition assert_called_once {R} (rec : Recorder R) : result unit :=
  if bool_decide (length (history rec) = 1%nat) then Ok tt
  else Raise (AssertionError "Expected to have been called once").

(** Modelled from the spec: a mock object, optionally constrained to an
    explicit capability set; each attribute that has been reached is a
    recorder of its own. An attribute that was never configured answers
    [None]. *)
Record Mock := {
  spec : option (gset string);
  attrs : gmap string (Recorder value)
}.

(** [Mock()] and [Mock(spec=...)] *)
Definition mock (capabilities : option (gset string)) : Mock :=
  {| spec := capabilities; attrs := ∅ |}.

Definition allowed (m : Mock) (name : string) : bool :=
  match spec m with
  | None => true
  | Some names => bool_decide (name ∈ names)
  end.

(** Modelled from the spec: reading the attribute [name]; outside the
    capability set this fails at once with [UnknownAttribute]. *)
Definition getattr (name : string) : M Mock (Recorder value) :=
  m ← get;
  if allowed m name then
    match attrs m !! name with
    | Some rec => ret rec
    | None =>
        put {| spec := spec m; attrs := <[name := fresh VNone]> (attrs m) |};;
        ret (fresh VNone)
    end
  else raise (UnknownAttribute name).

Definition setattr (name : string) (rec : Recorder value) : M Mock unit :=
  m ← get;
  put {| spec := spec m; attrs := <[name := rec]> (attrs m) |}.

(** Modelled from the spec: invoking the attribute, [m.name(args)]. *)
Definition invoke (name : string) (c : call) : M Mock value :=
  rec ← getattr name;
  let '(res, rec') := record c rec in
  setattr name rec';;
  lift res.

(** Modelled from the spec: configuring the attribute,
    [m.name.return_value = v] and [m.name.side_effect = e]. *)
Definition configure_return_value (name : string) (v : value) : M Mock unit :=
  rec ← getattr name;
  setattr name (set_return_value v rec).

Definition configure_side_effect (name : string) (e : exn) : M Mock unit :=
  rec ← getattr name;
  setattr name (set_side_effect e rec).

End Mock.

(** ** 5-mocking/mocking-a-database/db.py: save_user *)

Module MockingADatabase.
Import Mock.

(** The stand-ins [mocker.patch("sqlite3.connect")] puts in place:
    [sqlite3.connect] itself and, behind its return value, the methods
    the code reaches. The connection and the cursor are the recorders'
    return values; they carry no data of their own. *)
Record Sqlite := {
  connect : Recorder unit;
  cursor : Recorder unit;
  execute : Recorder unit;
  commit : Recorder unit;
  close : Recorder unit
}.

Definition patched : Sqlite :=
  {| connect := fresh tt; cursor := fresh tt; execute := fresh tt;
     commit := fresh tt; close := fresh tt |}.

Definition call_connect (c : call) : M Sqlite unit :=
  λ w, let '(res, rec) := record c (connect w) in
       (res, {| connect := rec; cursor := cursor w; execute := execute w;
                commit := commit w; close := close w |}).

Definition call_cursor (c : call) : M Sqlite unit :=
  λ w, let '(res, rec) := record c (cursor w) in
       (res, {| connect := connect w; cursor := rec; execute := execute w;
                commit := commit w; close := close w |}).

Definition call_execute (c : call) : M Sqlite unit :=
  λ w, let '(res, rec) := record c (execute w) in
       (res, {| connect := connect w; cursor := cursor w; execute := rec;
                commit := commit w; close := close w |}).

Definition call_commit (c : call) : M Sqlite unit :=
  λ w, let '(res, rec) := record c (commit w) in
       (res, {| connect := connect w; cursor := cursor w;
                execute := execute w; commit := rec; close := close w |}).

Definition call_close (c : call) : M Sqlite unit :=
  λ w, let '(res, rec) := record c (close w) in
       (res, {| connect := connect w; cursor := cursor w;
                execute := execute w; commit := commit w; close := rec |}).

(** [save_user(name, age)] *)
Definition save_user (name : string) (age : Z) : M Sqlite unit :=
  call_connect (Call [VStr "users.db"] ∅);;
  call_cursor (Call [] ∅);;
  call_execute
    (Call [VStr "INSERT INTO users (name, age) VALUES (?, ?)";
           VTuple [VStr name; VInt age]] ∅);;
  call_commit (Call [] ∅);;
  call_close (Call [] ∅).

(** [mock_cursor.execute.side_effect = Exception("DB write failed")] *)
Definition failing_execute : Sqlite :=
  {| connect := fresh tt; cursor := fresh tt;
     execute := set_side_effect (Exception "DB write failed") (fresh tt);
     commit := fresh tt; close := fresh tt |}.

End MockingADatabase.

(** ** 5-mocking/mocking-a-function/main.py: get_weather *)

Module MockingAFunction.
Import Mock.

(** What the stand-in for [requests.get] returns: an object with a
    [status_code] attribute and a [json] method, itself a recorder. *)
Record Response := {
  status_code : value;
  json : Recorder value
}.

Definition base_url : string := "http://api.weatherapi.com/v1/".

(** [response.json()], on the response object the stand-in holds as its
    return value: the call is recorded there. *)
Definition call_json (response : Response) : M (Recorder Response) value :=
  λ requests_get,
    let '(res, json') := record (Call [] ∅) (json response) in
    (res,
     {| history := history requests_get;
        configured :=
          match configured requests_get with
          | Returns _ =>
              Returns {| status_code := status_code response; json := json' |}
          | SideEffect e => SideEffect e
          end |}).

(** [get_weather(city)], with [requests.get] replaced by a recorder. *)
Definition get_weather (city : string) : M (Recorder Response) value :=
  response ← record (Call [VStr (base_url ++ city)%string] ∅);
  if value_eqb (status_code response) (VInt 200)
  then call_json response
  else raise (ValueError "City not found or API error").

(** The body the test configures: [{"temp": 20, "condition": "Sunny"}] *)
Definition sunny : value :=
  VDict {[ "temp" := VInt 20; "condition" := VStr "Sunny" ]}.

End MockingAFunction.

(** ** 5-mocking/mocking-classes/service.py: APIClient and UserService *)

Module MockingClasses.
Import Mock.

(** The capability set of [APIClient]: the operations the class
    names. *)
Definition APIClient : gset string := {[ "get_user_data" ]}.

Definition is_lower (c : ascii) : bool :=
  ((97 <=? nat_of_ascii c) && (nat_of_ascii c <=? 122))%nat.

(** [str.upper()], on ASCII text. *)
Fixpoint upper (s : string) : string :=
  match s with
  | EmptyString => EmptyString
  | String c s' =>
      String (if is_lower c then ascii_of_nat (nat_of_ascii c - 32) else c)
             (upper s')
  end.

Definition str_upper (v : value) : result string :=
  match v with
  | VStr s => Ok (upper s)
  | _ => Raise (UnknownAttribute "upper")
  end.

(** [UserService(api_client).get_username(user_id)], over the client it
    was given. *)
Definition get_username (user_id : value) : M Mock string :=
  user_data ← invoke "get_user_data" (Call [user_id] ∅);
  name ← lift (subscript user_data "name");
  lift (str_upper name).

End MockingClasses.

(** ** 6-example-testing-an-api/api.py: the Flask users API *)

Module Api.

(** What a view returns: [jsonify(payload), status]. *)
Record response := { payload : value; status : Z }.

Definition py_type_name (v : value) : string :=
  match v with
  | VNone => "NoneType"
  | VBool _ => "bool"
  | VInt _ => "int"
  | VStr _ => "str"
  | VTuple _ => "tuple"
  | VList _ => "list"
  | VDict _ => "dict"
  end.

(** [key in data] *)
Definition contains (key : string) (data : value) : result bool :=
  match data with
  | VDict d => Ok (bool_decide (key ∈ dom d))
  | VStr s => Ok (str_contains key s)
  | VTuple l | VList l => Ok (existsb (value_eqb (VStr key)) l)
  | VNone | VBool _ | VInt _ =>
      Raise (TypeError ("argument of type '" ++ py_type_name data ++
                        "' is not iterable")%string)
  end.

Definition invalid_input : response :=
  {| payload := VDict {[ "error" := VStr "Invalid input" ]}; status := 400 |}.

Definition not_found : response :=
  {| payload := VDict {[ "error" := VStr "User not found" ]}; status := 404 |}.

Definition user_record (user_id : Z) (name email : value) : value :=
  VDict {[ "id" := VInt user_id; "name" := name; "email" := email ]}.

(** [add_user()], the view of POST /users. [data] is what
    [request.get_json()] gave, [None] when the request has no body; the
    state is the module-level dict [users], which every request
    shares. *)
Definition add_user (data : value) : M (gmap Z value) response :=
  if negb (truthy data) then ret invalid_input else
  has_name ← lift (contains "name" data);
  if negb has_name then ret invalid_input else
  has_email ← lift (contains "email" data);
  if negb has_email then ret invalid_input else
  users ← get;
  let user_id := Z.of_nat (size users) + 1 in
  name ← lift (subscript data "name");
  email ← lift (subscript data "email");
  put (<[user_id := user_record user_id name email]> users);;
  users ← get;
  match users !! user_id with
  | Some user => ret {| payload := user; status := 201 |}
  | None => raise (KeyError "user_id")
  end.

(** [get_user(user_id)], the view of GET /users/<int:user_id>. *)
Definition get_user (user_id : Z) : M (gmap Z value) response :=
  users ← get;
  match users !! user_id with
  | Some user =>
      if truthy user then ret {| payload := user; status := 200 |}
      else ret not_found
  | None => ret not_found
  end.

(** The requests the test client sends. *)
Inductive request :=
  | POST_users (json : value)
  | GET_users (user_id : Z).

Definition serve (rq : request) : M (gmap Z value) response :=
  match rq with
  | POST_users data => add_user data
  | GET_users user_id => get_user user_id
  end.

(** The store after a sequence of requests; a request whose view raises
    leaves it as the view left it. *)
Definition serve_all (rqs : list request) (users : gmap Z value) : gmap Z value :=
  foldl (λ users rq, snd (serve rq users)) users rqs.

(** The stores the application can be in: the empty dict of the module,
    after any sequence of requests. *)
Definition reachable (users : gmap Z value) : Prop :=
  ∃ rqs, users = serve_all rqs ∅.

(** No view removes an entry, and add_user writes under the next free
    id, so the ids in use are 1, ..., len(users). *)
Definition dense (users : gmap Z value) : Prop :=
  ∀ k : Z, is_Some (users !! k) ↔ (1 ≤ k ≤ Z.of_nat (size users))%Z.

End Api.

(** ** Further definitions used to state properties of the examples *)

Module Scripts.

(** The email the first [add_user(username, ...)] call of a script
    passes, if there is one. *)
Fixpoint first_email (username : string) (cs : list FixturesSetup.call)
    : option string :=
  match cs with
  | [] => None
  | FixturesSetup.AddUser u e :: rest =>
      if bool_decide (u = username) then Some e else first_email username rest
  | FixturesSetup.GetItem _ :: rest => first_email username rest
  end.

End Scripts.

(** ** 6-example-testing-an-api/test_api.py: test bodies over the
    shared store *)

Module ApiTests.
Import Api.

Definition bob : value :=
  VDict {[ "name" := VStr "Bob Leck"; "email" := VStr "bob@test.com" ]}.

Definition bob_stored (user_id : Z) : value :=
  user_record user_id (VStr "Bob Leck") (VStr "bob@test.com").

(** [test_get_user(client)] *)
Definition test_get_user : M (gmap Z value) unit :=
  serve (POST_users bob);;
  response ← serve (GET_users 2);
  assert (status response =? 200);;
  assert (value_eqb (payload response) (bob_stored 2)).

(** Every stored record is the dict add_user built for its key. *)
Definition records_kept (users : gmap Z value) : Prop :=
  ∀ k v, users !! k = Some v → ∃ name email, v = user_record k name email.

End ApiTests.

(** ** 5-mocking/mocking-classes/service.py, with requests.get replaced
    by a recorder *)

Module Service.
Import Mock.

(** What the stand-in for [requests.get] returns to [APIClient]: an
    object with a [status_code] attribute and the methods [json] and
    [raise_for_status], each a recorder. *)
Record HttpResponse := {
  status_code : value;
  json : Recorder value;
  raise_for_status : Recorder unit
}.

(** [f"https://api.example.com/users/{user_id}"], for an int id. *)
Definition user_url (user_id : Z) : string :=
  ("https://api.example.com/users/" ++ pretty user_id)%string.

(** The recorder with the response it holds replaced. *)
Definition with_response (requests_get : Recorder HttpResponse)
    (response : HttpResponse) : Recorder HttpResponse :=
  {| history := history requests_get;
     configured :=
       match configured requests_get with
       | Returns _ => Returns response
       | SideEffect e => SideEffect e
       end |}.

(** [response.json()] *)
Definition call_json (response : HttpResponse)
    : M (Recorder HttpResponse) value :=
  λ requests_get,
    let '(res, json') := record (Call [] ∅) (json response) in
    (res, with_response requests_get
            {| status_code := status_code response; json := json';
               raise_for_status := raise_for_status response |}).

(** [response.raise_for_status()] *)
Definition call_raise_for_status (response : HttpResponse)
    : M (Recorder HttpResponse) unit :=
  λ requests_get,
    let '(res, rfs') := record (Call [] ∅) (raise_for_status response) in
    (res, with_response requests_get
            {| status_code := status_code response; json := json response;
               raise_for_status := rfs' |}).

(** [APIClient.get_user_data(self, user_id)]; the branch that calls
    [raise_for_status] has no return statement, so it gives [None] when
    that call comes back. *)
Definition get_user_data (user_id : Z) : M (Recorder HttpResponse) value :=
  response ← record (Call [VStr (user_url user_id)] ∅);
  if value_eqb (status_code response) (VInt 200)
  then call_json response
  else call_raise_for_status response;; ret VNone.

(** [UserService(api_client).get_username(user_id)], for whatever
    client the service was constructed with: [fetch] is its
    [get_user_data] method. *)
Definition get_username_with {S U} (fetch : U → M S value) (user_id : U)
    : M S string :=
  user_data ← fetch user_id;
  name ← lift (subscript user_data "name");
  lift (MockingClasses.str_upper name).

End Service.

(** ** 5-mocking/mocking-a-database/db.py: the statement save_user
    executes *)

Module SaveUserCalls.

Definition insert_call (name : string) (age : Z) : call :=
  Call [VStr "INSERT INTO users (name, age) VALUES (?, ?)";
        VTuple [VStr name; VInt age]] ∅.

End SaveUserCalls.

(** ** 1-simple-functions-example/main.py: add *)

Module SimpleFunctionsAdd.
Import Binary64.



End SimpleFunctionsAdd.

(** * Properties *)

(** ** Deep equality decides equality of values *)

Module PyProofs.

Lemma value_size_elem (l : list value) v :
  v ∈ l → (value_size v < S (foldr (λ x acc, value_size x + acc) 0 l))%nat.
Proof.
  induction l as [|a l IH]; intros Hin.
  - by apply elem_of_nil in Hin.
  - apply elem_of_cons in Hin as [->|Hin]; simpl; [lia|].
    specialize (IH Hin). lia.
Qed.

Lemma value_size_item (d : gmap string value) k v :
  d !! k = Some v → (value_size v < value_size (VDict d))%nat.
Proof.
  simpl. revert k v. induction d as [|i x m Hi IH] using map_ind; intros k v Hk.
  - by rewrite lookup_empty in Hk.
  - rewrite map_fold_insert_L; [|intros; lia|done].
    destruct (decide (i = k)) as [->|Hne].
    + rewrite lookup_insert_eq in Hk. injection Hk as ->. lia.
    + rewrite lookup_insert_ne in Hk by done. specialize (IH _ _ Hk). lia.
Qed.

(** Induction on values, with the hypothesis for every element of a
    tuple or list and every item of a dict. *)
Lemma value_ind' (P : value → Prop) :
  P VNone → (∀ b, P (VBool b)) → (∀ z, P (VInt z)) → (∀ s, P (VStr s)) →
  (∀ l, Forall P l → P (VTuple l)) →
  (∀ l, Forall P l → P (VList l)) →
  (∀ d, map_Forall (λ _, P) d → P (VDict d)) →
  ∀ v, P v.
Proof.
  intros HN HB HI HS HT HL HD v.
  remember (value_size v) as n eqn:Hn. revert v Hn.
  induction (lt_wf n) as [n _ IH]. intros v ->.
  destruct v as [| | | |l|l|d]; auto.
  - apply HT, Forall_forall. intros x Hx. eapply IH; [|reflexivity].
    by apply value_size_elem.
  - apply HL, Forall_forall. intros x Hx. eapply IH; [|reflexivity].
    by apply value_size_elem.
  - apply HD. intros k x Hx. eapply IH; [|reflexivity].
    by eapply value_size_item.
Qed.

Lemma list_eqb_eq (eqb : value → value → bool) (l1 l2 : list value) :
  Forall (λ x, ∀ y, eqb x y = true ↔ x = y) l1 →
  (fix go (l1 l2 : list value) : bool :=
     match l1, l2 with
     | [], [] => true
     | a :: l1, b :: l2 => eqb a b && go l1 l2
     | _, _ => false
     end) l1 l2 = true ↔ l1 = l2.
Proof.
  intros Hl. revert l2.
  induction Hl as [|a l1 Ha Hl IH]; intros [|b l2];
    try (split; [discriminate|congruence]); [done|].
  rewrite andb_true_iff, Ha, IH. split; [by intros [-> ->]|by intros [= -> ->]].
Qed.

Lemma map_fold_andb_true {A} (chk : string → A → bool) (d : gmap string A) :
  map_fold (λ k v acc, acc && chk k v) true d = true ↔
  ∀ k v, d !! k = Some v → chk k v = true.
Proof.
  induction d as [|i x m Hi IH] using map_ind.
  - rewrite map_fold_empty. split; [|done]. intros _ k v. by rewrite lookup_empty.
  - rewrite map_fold_insert_L; [|intros; by destruct (chk _ _), (chk _ _), y|done].
    rewrite andb_true_iff, IH. split.
    + intros [Hm Hx] k v. destruct (decide (i = k)) as [->|Hne].
      * rewrite lookup_insert_eq. by intros [= <-].
      * rewrite lookup_insert_ne by done. apply Hm.
    + intros H. split.
      * intros k v Hk. apply H. rewrite lookup_insert_ne; [done|].
        intros ->. congruence.
      * apply H, lookup_insert_eq.
Qed.

Lemma value_eqb_eq x y : value_eqb x y = true ↔ x = y.
Proof.
  revert y. induction x as [| | | |l IH|l IH|d IH] using value_ind'; intros y.
  1-4: destruct y; simpl; rewrite ?bool_decide_eq_true; split; congruence.
  - destruct y as [| | | |l2| |]; try (simpl; split; congruence).
    simpl. rewrite list_eqb_eq by done. split; congruence.
  - destruct y as [| | | | |l2|]; try (simpl; split; congruence).
    simpl. rewrite list_eqb_eq by done. split; congruence.
  - destruct y as [| | | | | |d2]; try (simpl; split; congruence).
    simpl. rewrite andb_true_iff, bool_decide_eq_true, map_fold_andb_true.
    split.
    + intros [Hdom Hall]. f_equal. apply map_eq. intros k.
      destruct (d !! k) as [v|] eqn:Hk.
      * specialize (Hall _ _ Hk). destruct (d2 !! k) as [w|]; [|done].
        apply (IH _ _ Hk) in Hall. by subst.
      * apply not_elem_of_dom in Hk. symmetry. apply not_elem_of_dom.
        intros Hin. apply Hk, Hdom, Hin.
    + intros [= <-]. split; [done|]. intros k v Hk. rewrite Hk.
      by apply (IH _ _ Hk).
Qed.

Lemma value_eqb_refl x : value_eqb x x = true.
Proof. by apply value_eqb_eq. Qed.

Lemma call_eqb_eq c1 c2 : call_eqb c1 c2 = true ↔ c1 = c2.
Proof.
  unfold call_eqb. rewrite andb_true_iff, !value_eqb_eq.
  destruct c1, c2; simpl. split; [by intros [[= ->] [= ->]]|by intros [= -> ->]].
Qed.

(** Sequencing, step by step. *)
Lemma bind_ok {S A B} (m : M S A) (k : A → M S B) s a s' :
  m s = (Ok a, s') → (m ≫= k) s = k a s'.
Proof. intros H. unfold mbind, M_bind, bind. by rewrite H. Qed.

Lemma bind_raise {S A B} (m : M S A) (k : A → M S B) s e s' :
  m s = (Raise e, s') → (m ≫= k) s = (Raise e, s').
Proof. intros H. unfold mbind, M_bind, bind. by rewrite H. Qed.

End PyProofs.

(** ** Numbers *)

Module FloatProofs.
Import Binary64 SimpleFunctions ParametrizedTesting.

(** *** Digits, shifts and rounding to binary64 *)

Lemma digits2_pos_size p : digits2_pos p = Pos.size p.
Proof. induction p as [p IH|p IH|]; simpl; by rewrite ?IH. Qed.

Lemma Zdigits2_log2 m : 0 < m → Zdigits2 m = Z.log2 m + 1.
Proof.
  destruct m as [|p|p]; try lia. intros _. simpl. rewrite digits2_pos_size.
  destruct p; simpl; lia.
Qed.

Lemma Zdigits2_bounds m :
  0 < m → 2 ^ (Zdigits2 m - 1) ≤ m < 2 ^ Zdigits2 m.
Proof.
  intros Hm. rewrite Zdigits2_log2 by done.
  replace (Z.log2 m + 1 - 1) with (Z.log2 m) by lia.
  replace (Z.log2 m + 1) with (Z.succ (Z.log2 m)) by lia.
  by apply Z.log2_spec.
Qed.

Lemma Zdigits2_pos m : 0 < m → 0 < Zdigits2 m.
Proof. intros Hm. rewrite Zdigits2_log2 by done. pose proof (Z.log2_nonneg m). lia. Qed.

Lemma iter_pos_nat {A} (f : A → A) p x :
  SpecFloat.iter_pos f p x = @Nat.iter (Pos.to_nat p) A f x.
Proof.
  revert x. induction p as [p IH|p IH|]; intros x; cbn [SpecFloat.iter_pos].
  - rewrite !IH, Pos2Nat.inj_xI.
    replace (S (2 * Pos.to_nat p)) with (Pos.to_nat p + (Pos.to_nat p + 1))%nat by lia.
    by rewrite !Nat.iter_add.
  - rewrite !IH, Pos2Nat.inj_xO.
    replace (2 * Pos.to_nat p)%nat with (Pos.to_nat p + Pos.to_nat p)%nat by lia.
    by rewrite Nat.iter_add.
  - done.
Qed.

Lemma shr_1_m r : 0 ≤ shr_m r → shr_m (shr_1 r) = shr_m r / 2.
Proof.
  destruct r as [m rb sb]. simpl. intros Hm.
  destruct m as [|[p|p|]|]; cbn [shr_1 shr_m]; try lia; try done.
  - apply Z.div_unique with 1; lia.
  - apply Z.div_unique with 0; lia.
Qed.

Lemma shr_iter_m n r :
  0 ≤ shr_m r → shr_m (@Nat.iter n _ shr_1 r) = shr_m r / 2 ^ Z.of_nat n.
Proof.
  intros Hm. induction n as [|n IH].
  - simpl. by rewrite Z.div_1_r.
  - simpl Nat.iter. rewrite shr_1_m, IH.
    + rewrite Z.div_div by lia. f_equal. rewrite Nat2Z.inj_succ, Z.pow_succ_r; lia.
    + rewrite IH. apply Z.div_pos; lia.
Qed.

Lemma shr_m_of_loc m l : shr_m (shr_record_of_loc m l) = m.
Proof. by destruct l as [|[]]. Qed.

Lemma Zdigits2_unique m d : 0 < d → 2 ^ (d - 1) ≤ m < 2 ^ d → Zdigits2 m = d.
Proof.
  intros Hd Hm. assert (0 < m) by (pose proof (Z.pow_pos_nonneg 2 (d - 1)); lia).
  rewrite Zdigits2_log2 by done.
  rewrite (Z.log2_unique m (d - 1)); [lia|lia|].
  by replace (Z.succ (d - 1)) with d by lia.
Qed.

Lemma Zdigits2_mono a b : 0 < a → a ≤ b → Zdigits2 a ≤ Zdigits2 b.
Proof.
  intros Ha Hab. rewrite !Zdigits2_log2 by lia.
  pose proof (Z.log2_le_mono a b Hab). lia.
Qed.

Lemma Zdigits2_succ m : 0 < m → Zdigits2 (m + 1) ≤ Zdigits2 m + 1.
Proof.
  intros Hm. rewrite !Zdigits2_log2 by lia.
  pose proof (Z.log2_succ_le m). replace (m + 1) with (Z.succ m) by lia. lia.
Qed.

Lemma div_pow2_bounds m d p :
  0 ≤ p < d → 2 ^ (d - 1) ≤ m < 2 ^ d →
  2 ^ (d - p - 1) ≤ m / 2 ^ p < 2 ^ (d - p).
Proof.
  intros Hp [Hlo Hhi]. assert (0 < 2 ^ p) by (apply Z.pow_pos_nonneg; lia).
  split.
  - apply Z.div_le_lower_bound; [done|].
    rewrite <- Z.pow_add_r by lia. by replace (p + (d - p - 1)) with (d - 1) by lia.
  - apply Z.div_lt_upper_bound; [done|].
    rewrite <- Z.pow_add_r by lia. by replace (p + (d - p)) with d by lia.
Qed.

Lemma shr_fexp_pos m e l :
  0 < m → -1074 ≤ Zdigits2 m + e - 53 →
  0 < shr_m (fst (shr_fexp 53 1024 m e l)) ∧
  snd (shr_fexp 53 1024 m e l) = e + Z.max (Zdigits2 m - 53) 0 ∧
  Zdigits2 (shr_m (fst (shr_fexp 53 1024 m e l))) = Z.min (Zdigits2 m) 53.
Proof.
  intros Hm He. unfold shr_fexp, fexp, emin.
  replace (Z.max (Zdigits2 m + e - 53) (3 - 1024 - 53) - e)
    with (Zdigits2 m - 53) by lia.
  destruct (Zdigits2 m - 53) as [|p|p] eqn:Hn; cbn [shr fst snd];
    rewrite ?shr_m_of_loc; try (split; [done|lia]).
  rewrite iter_pos_nat, shr_iter_m, shr_m_of_loc, positive_nat_Z
    by (rewrite shr_m_of_loc; lia).
  pose proof (Zdigits2_bounds m Hm) as Hb.
  pose proof (div_pow2_bounds m (Zdigits2 m) (Z.pos p) ltac:(lia) Hb) as Hq.
  replace (Zdigits2 m - Z.pos p - 1) with 52 in Hq by lia.
  replace (Zdigits2 m - Z.pos p) with 53 in Hq by lia.
  split; [lia|]. split; [lia|].
  rewrite (Zdigits2_unique _ 53); [lia|lia|done].
Qed.

Lemma round_nearest_even_bounds m l :
  m ≤ round_nearest_even m l ≤ m + 1.
Proof. destruct l as [|[]]; simpl; try lia. destruct (Z.even m); lia. Qed.

Lemma binary_round_aux_pos s m e l :
  0 < m → -1074 ≤ Zdigits2 m + e - 53 →
  ∃ e' p,
    e + Z.max (Zdigits2 m - 53) 0 ≤ e' ≤ e + Z.max (Zdigits2 m - 53) 0 + 1 ∧
    binary_round_aux 53 1024 s m e l =
      if e' <=? 971 then S754_finite s p e' else S754_infinity s.
Proof.
  intros Hm He. unfold binary_round_aux.
  destruct (shr_fexp_pos m e l Hm He) as (Hm1 & He1 & Hd1).
  destruct (shr_fexp 53 1024 m e l) as [r1 e1]. cbn [fst snd] in *.
  pose proof (round_nearest_even_bounds (shr_m r1) (loc_of_shr_record r1)) as Hr.
  set (m2 := round_nearest_even (shr_m r1) (loc_of_shr_record r1)) in *.
  assert (Zdigits2 (shr_m r1) ≤ Zdigits2 m2 ≤ Zdigits2 (shr_m r1) + 1) as Hd2.
  { split; [apply Zdigits2_mono; lia|].
    etrans; [apply (Zdigits2_mono m2 (shr_m r1 + 1)); lia|].
    by apply Zdigits2_succ. }
  destruct (shr_fexp_pos m2 e1 loc_Exact ltac:(lia) ltac:(lia)) as (Hm3 & He3 & _).
  destruct (shr_fexp 53 1024 m2 e1 loc_Exact) as [r2 e2]. cbn [fst snd] in *.
  destruct (shr_m r2) as [|p|p]; try lia.
  exists e2, p. split; [lia|]. done.
Qed.

Lemma Pos_iter_xO_pow2 m k : Z.pos (Pos.iter xO m k) = Z.pos m * 2 ^ Z.pos k.
Proof.
  induction k as [|k IH] using Pos.peano_ind.
  - simpl. lia.
  - rewrite Pos.iter_succ, Pos2Z.inj_xO, IH, Pos2Z.inj_succ, Z.pow_succ_r; lia.
Qed.

Lemma Zdigits2_mul_pow2 m k :
  0 < m → 0 ≤ k → Zdigits2 (m * 2 ^ k) = Zdigits2 m + k.
Proof.
  intros Hm Hk. assert (0 < 2 ^ k) by (apply Z.pow_pos_nonneg; lia).
  rewrite !Zdigits2_log2 by nia. rewrite Z.log2_mul_pow2 by lia. lia.
Qed.

Lemma binary_round_int s mx :
  ∃ e' p,
    Zdigits2 (Z.pos mx) - 53 ≤ e' ≤ Zdigits2 (Z.pos mx) - 52 ∧
    binary_round 53 1024 s mx 0 =
      if e' <=? 971 then S754_finite s p e' else S754_infinity s.
Proof.
  unfold binary_round, shl_align, fexp, emin.
  pose proof (Zdigits2_pos (Z.pos mx) ltac:(lia)) as Hd.
  change (Z.pos (digits2_pos mx)) with (Zdigits2 (Z.pos mx)).
  set (d := Zdigits2 (Z.pos mx)) in *.
  replace (Z.max (d + 0 - 53) (3 - 1024 - 53) - 0) with (d - 53) by lia.
  replace (Z.max (d + 0 - 53) (3 - 1024 - 53)) with (d - 53) by lia.
  destruct (d - 53) as [|k|k] eqn:Hk.
  - destruct (binary_round_aux_pos s (Z.pos mx) 0 loc_Exact) as (e' & p & He' & ->);
      [lia|fold d; lia|]. fold d in He'. exists e', p. split; [lia|done].
  - destruct (binary_round_aux_pos s (Z.pos mx) 0 loc_Exact) as (e' & p & He' & ->);
      [lia|fold d; lia|]. fold d in He'. exists e', p. split; [lia|done].
  - assert (Zdigits2 (Z.pos (Pos.iter xO mx k)) = 53) as Hd'.
    { rewrite Pos_iter_xO_pow2, Zdigits2_mul_pow2 by lia. fold d. lia. }
    destruct (binary_round_aux_pos s (Z.pos (Pos.iter xO mx k)) (Z.neg k) loc_Exact)
      as (e' & p & He' & ->); [lia|lia|].
    rewrite Hd' in He'. exists e', p. split; [lia|done].
Qed.

(** [float(n)] of a nonzero int: a finite float of the same sign whose
    exponent is fixed by the number of digits of [n], or
    [OverflowError]. *)
Lemma of_int_pos p :
  ∃ e' q,
    Zdigits2 (Z.pos p) - 53 ≤ e' ≤ Zdigits2 (Z.pos p) - 52 ∧
    of_int (Z.pos p) =
      if e' <=? 971 then Ok (S754_finite false q e')
      else Raise (OverflowError "int too large to convert to float").
Proof.
  destruct (binary_round_int false p) as (e' & q & He' & Hr).
  exists e', q. split; [done|].
  unfold of_int, binary_normalize, prec, emax. rewrite Hr.
  by destruct (e' <=? 971).
Qed.

Lemma of_int_neg p :
  ∃ e' q,
    Zdigits2 (Z.pos p) - 53 ≤ e' ≤ Zdigits2 (Z.pos p) - 52 ∧
    of_int (Z.neg p) =
      if e' <=? 971 then Ok (S754_finite true q e')
      else Raise (OverflowError "int too large to convert to float").
Proof.
  destruct (binary_round_int true p) as (e' & q & He' & Hr).
  exists e', q. split; [done|].
  unfold of_int, binary_normalize, prec, emax. rewrite Hr.
  by destruct (e' <=? 971).
Qed.

(** Every int of magnitude below 2^1023 converts. *)
Lemma of_int_in_range n : Z.abs n < 2 ^ 1023 → is_ok (of_int n) = true.
Proof.
  intros Hn. destruct n as [|p|p]; [done| |].
  - destruct (of_int_pos p) as (e' & q & He' & ->).
    pose proof (Zdigits2_bounds (Z.pos p) ltac:(lia)) as [Hlo _].
    destruct (Z.leb_spec e' 971); [done|].
    assert (2 ^ 1023 ≤ 2 ^ (Zdigits2 (Z.pos p) - 1))
      by (apply Z.pow_le_mono_r; lia). lia.
  - destruct (of_int_neg p) as (e' & q & He' & ->).
    pose proof (Zdigits2_bounds (Z.pos p) ltac:(lia)) as [Hlo _].
    destruct (Z.leb_spec e' 971); [done|].
    assert (2 ^ 1023 ≤ 2 ^ (Zdigits2 (Z.pos p) - 1))
      by (apply Z.pow_le_mono_r; lia). lia.
Qed.

Lemma of_int_raises n e :
  of_int n = Raise e →
  e = OverflowError "int too large to convert to float" ∧ 2 ^ 1023 ≤ Z.abs n.
Proof.
  intros Hr. split.
  - unfold of_int in Hr. destruct (binary_normalize _ _ _ _ _); congruence.
  - destruct (Z.lt_ge_cases (Z.abs n) (2 ^ 1023)) as [Hlt|]; [|done].
    apply of_int_in_range in Hlt. by rewrite Hr in Hlt.
Qed.

Lemma of_int_nonzero n y : n ≠ 0 → of_int n = Ok y → is_zero y = false.
Proof.
  intros Hn Hy. destruct n as [|p|p]; [done| |].
  - destruct (of_int_pos p) as (e' & q & _ & Hr). rewrite Hr in Hy.
    destruct (e' <=? 971); [|done]. by injection Hy as <-.
  - destruct (of_int_neg p) as (e' & q & _ & Hr). rewrite Hr in Hy.
    destruct (e' <=? 971); [|done]. by injection Hy as <-.
Qed.

(** *** The weather classifier *)








(** *** divide *)

(** What [a / b] can raise, and that a nonzero divisor never makes it
    raise ZeroDivisionError. *)
Lemma truediv_outcome a b :
  num_is_zero b = false →
  (∃ q, truediv a b = Ok q) ∨
  truediv a b = Raise (OverflowError "int too large to convert to float") ∨
  truediv a b =
    Raise (OverflowError "integer division result too large for a float").
Proof.
  intros Hb. destruct a as [m|x], b as [n|y]; simpl in Hb.
  - unfold truediv, int_truediv. rewrite Hb.
    destruct (SFdiv _ _ _ _); eauto.
  - unfold truediv, mbind, result_bind, rbind, to_float, float_truediv.
    destruct (of_int m) as [x|e] eqn:Hx.
    + rewrite Hb. eauto.
    + apply of_int_raises in Hx as [-> _]. eauto.
  - unfold truediv, mbind, result_bind, rbind, to_float, float_truediv.
    destruct (of_int n) as [y|e] eqn:Hy.
    + rewrite (of_int_nonzero n y) by (done || by apply Z.eqb_neq). eauto.
    + apply of_int_raises in Hy as [-> _]. eauto.
  - unfold truediv, mbind, result_bind, rbind, to_float, float_truediv.
    rewrite Hb. eauto.
Qed.




(** *** is_prime *)

(** C5: for every integer n with 1 <= n <= 25, is_prime(n) is true
    exactly when n is one of 2, 3, 5, 7, 11, 13, 17, 19, 23. *)
Theorem is_prime_1_to_25 (n : Z) :
  1 ≤ n ≤ 25 →
  is_prime n = Ok (bool_decide (n ∈ [2; 3; 5; 7; 11; 13; 17; 19; 23])).
Proof.
  intros Hn.
  assert (forallb (λ n,
            match is_prime n with
            | Ok b =>
                Bool.eqb b (bool_decide (n ∈ [2; 3; 5; 7; 11; 13; 17; 19; 23]))
            | Raise _ => false
            end) (seqZ 1 25) = true) as Hall by (vm_compute; reflexivity).
  rewrite forallb_forall in Hall. specialize (Hall n).
  destruct (is_prime n) as [b|e].
  - f_equal. apply Bool.eqb_prop, Hall, list_elem_of_In, elem_of_seqZ. lia.
  - discriminate Hall. apply list_elem_of_In, elem_of_seqZ. lia.
Qed.

Lemma is_prime_1_to_25_witness :
  is_prime 25 = Ok (bool_decide (25 ∈ [2; 3; 5; 7; 11; 13; 17; 19; 23])).
Proof. apply (is_prime_1_to_25 25). lia. Defined.

(** The thirteen cases of the parametrized test. *)
Lemma test_is_prime :
  Forall (λ '(input, expected), is_prime input = Ok expected)
    [(1, false); (2, true); (3, true); (4, false); (5, true); (16, false);
     (17, true); (18, false); (19, true); (20, false); (23, true);
     (24, false); (25, false)].
Proof. repeat (constructor; [by vm_compute|]). constructor. Qed.

End FloatProofs.
Module FixturesSetupProofs.
Import FixturesSetup.

Lemma add_user_present username email (m : UserManager) :
  is_Some (users m !! username) →
  add_user username email m = (Raise (ValueError "User already exists"), m).
Proof.
  intros Hin. unfold add_user, mbind, M_bind, bind, get, raise.
  rewrite bool_decide_eq_true_2; [done|]. by apply elem_of_dom.
Qed.

Lemma add_user_absent username email (m : UserManager) :
  users m !! username = None →
  add_user username email m =
    (Ok true, {| users := <[username := email]> (users m) |}).
Proof.
  intros Hno. unfold add_user, mbind, M_bind, bind, get, raise, put, ret.
  rewrite bool_decide_eq_false_2; [done|]. by apply not_elem_of_dom.
Qed.

Lemma exec_all_snoc cs c m : exec_all (cs ++ [c]) m = exec c (exec_all cs m).
Proof. unfold exec_all. by rewrite foldl_app. Qed.

(** Only [add_user] writes the dictionary, and only under the name it is
    given. *)
Lemma exec_all_lookup_None cs u :
  u ∉ added cs → users (exec_all cs init) !! u = None.
Proof.
  induction cs as [|c cs IH] using rev_ind; intros Hu.
  - apply lookup_empty.
  - rewrite exec_all_snoc. unfold added in *. rewrite omap_app in Hu.
    apply not_elem_of_app in Hu as [Hcs Hc]. specialize (IH Hcs).
    destruct c as [v e|v]; simpl in *; [|done].
    destruct (users (exec_all cs init) !! v) as [e'|] eqn:Hv.
    + rewrite add_user_present by eauto. done.
    + rewrite add_user_absent by done. simpl.
      rewrite lookup_insert_ne; [done|]. intros ->. apply Hc. set_solver.
Qed.

(** C6: on a fresh UserManager the first add_user("john_doe", e1)
    returns True and the second add_user("john_doe", e2) raises
    ValueError("User already exists"), for any emails; and indexing the
    manager with a username that no add_user call of the script received
    returns None without raising. *)
Theorem add_twice_and_lookup_unregistered :
  (∀ e1 e2 : string,
     ∃ m1, add_user "john_doe" e1 init = (Ok true, m1) ∧
           add_user "john_doe" e2 m1 =
             (Raise (ValueError "User already exists"), m1)) ∧
  (∀ (cs : list call) (username : string),
     username ∉ added cs →
     getitem username (exec_all cs init) = (Ok None, exec_all cs init)).
Proof.
  split.
  - intros e1 e2. eexists. split.
    + apply add_user_absent. apply lookup_empty.
    + apply add_user_present. simpl. rewrite lookup_insert_eq. eauto.
  - intros cs u Hu. unfold getitem, mbind, M_bind, bind, get, ret.
    by rewrite exec_all_lookup_None.
Qed.

Lemma add_twice_and_lookup_unregistered_witness :
  getitem "nonexistent"
    (exec_all [AddUser "john_doe" "john@example.com";
               AddUser "john_doe" "another@example.com"] init) =
  (Ok None,
   exec_all [AddUser "john_doe" "john@example.com";
             AddUser "john_doe" "another@example.com"] init).
Proof.
  apply (proj2 add_twice_and_lookup_unregistered).
  unfold added. simpl. set_solver.
Defined.

(** C9: add_user on a username that is already present raises and
    leaves the manager exactly as it was: the stored email is not
    replaced by the new one and no entry is added, removed or changed. *)
Theorem add_user_atomic_on_failure
    (m : UserManager) (username new_email old_email : string) :
  users m !! username = Some old_email →
  ∃ m', add_user username new_email m =
          (Raise (ValueError "User already exists"), m') ∧
        m' = m ∧
        users m' !! username = Some old_email ∧
        ∀ k, users m' !! k = users m !! k.
Proof.
  intros Hold. exists m. rewrite add_user_present by eauto. done.
Qed.

Lemma add_user_atomic_on_failure_witness :
  ∃ m', add_user "john_doe" "another@example.com"
          {| users := {[ "john_doe" := "john@example.com" ]} |} =
          (Raise (ValueError "User already exists"), m') ∧
        m' = {| users := {[ "john_doe" := "john@example.com" ]} |} ∧
        users m' !! "john_doe" = Some "john@example.com" ∧
        ∀ k, users m' !! k =
             users {| users := {[ "john_doe" := "john@example.com" ]} |} !! k.
Proof.
  apply (add_user_atomic_on_failure _ "john_doe" "another@example.com"
           "john@example.com").
  reflexivity.
Defined.

End FixturesSetupProofs.
(** ** The fixture lifecycle *)

Module FixtureProofs.
Import Fixture.

Section Lifecycle.

Context {V : Type}.
Variable registry : gmap string (FixtureProvider V).
Variable t : TestCase V.

Abbreviation run := (run registry t).
Abbreviation setup_env := (setup_env registry).
Abbreviation teardown_env := (teardown_env registry).

Lemma run_S n r : run (S n) r = run n (Fixture.step registry t r).
Proof. reflexivity. Qed.

Lemma run_add a b r : run (a + b) r = run b (run a r).
Proof. revert r. induction a as [|a IH]; intros r; simpl; [done|apply IH]. Qed.

Lemma run_setups ds lv e lg v :
  Forall (λ name, is_Some (registry !! name)) ds →
  run (length ds)
    {| ph := SettingUp; todo := ds; live := lv; env := e; log := lg;
       verdict := v |} =
    {| ph := SettingUp; todo := []; live := rev ds ++ lv;
       env := setup_env ds e; log := lg ++ map EvSetup ds; verdict := v |}.
Proof.
  intros Hreg. revert lv e lg.
  induction Hreg as [|name ds [f Hf] _ IH]; intros lv e lg; simpl.
  - by rewrite app_nil_r.
  - unfold Fixture.step at 1. cbn [ph todo live env log verdict length run].
    rewrite Hf, IH. unfold Fixture.setup_env. by rewrite <- !app_assoc.
Qed.

Lemma run_teardowns lv td e lg v :
  run (length lv)
    {| ph := TearingDown; todo := td; live := lv; env := e; log := lg;
       verdict := v |} =
    {| ph := TearingDown; todo := td; live := []; env := teardown_env lv e;
       log := lg ++ map EvTeardown lv; verdict := v |}.
Proof.
  revert e lg. induction lv as [|name lv IH]; intros e lg; simpl.
  - by rewrite app_nil_r.
  - unfold Fixture.step at 1. simpl. rewrite IH. by rewrite <- app_assoc.
Qed.

(** The whole invocation, when every requested fixture is registered:
    the fixtures are set up in the order they are declared, the body runs
    on their objects, and they are torn down in reverse order on the
    objects as the body left them. *)
Lemma run_test_registered :
  Forall (λ name, is_Some (registry !! name)) (deps t) →
  run_test registry t =
    {| ph := Done; todo := []; live := [];
       env := teardown_env (rev (deps t))
                (snd (body t (setup_env (deps t) ∅)));
       log := map EvSetup (deps t) ++ EvBody ::
              map EvTeardown (rev (deps t));
       verdict := Some match fst (body t (setup_env (deps t) ∅)) with
                       | Ok _ => Passed
                       | Raise e => Failed e
                       end |}.
Proof.
  intros Hreg. unfold run_test.
  replace (2 * length (deps t) + 4)%nat
    with (S (length (deps t) + S (S (length (rev (deps t)) + 1))))%nat
    by (rewrite length_rev; lia).
  rewrite run_S. change (Fixture.step registry t start) with
    {| ph := SettingUp; todo := deps t; live := []; env := (∅ : gmap string V);
       log := []; verdict := @None outcome |}.
  rewrite run_add, run_setups, !run_S by done.
  unfold Fixture.step at 2. cbn [ph todo live env log verdict].
  unfold Fixture.step at 1. cbn [ph todo live env log verdict].
  destruct (body t (setup_env (deps t) ∅)) as [res e'] eqn:Hbody.
  rewrite app_nil_r, run_add, run_teardowns. cbn [run fst snd].
  unfold Fixture.step. cbn [ph todo live env log verdict app].
  by rewrite <- app_assoc.
Qed.

End Lifecycle.



(** A test that declares [db], whatever its body does. *)
Lemma run_test_db (script : M FixturesTeardown.DataBase unit) :
  let r := run_test db_registry (on_db script) in
  log r = [EvSetup "db"; EvBody; EvTeardown "db"] ∧
  env r !! "db" = Some {| FixturesTeardown.data := ∅ |} ∧
  verdict r = Some match fst (script FixturesTeardown.init) with
                   | Ok _ => Passed
                   | Raise e => Failed e
                   end.
Proof.
  intros r. subst r.
    rewrite run_test_registered.
    2:{ repeat constructor. by eexists. }
    simpl. unfold setup_env, teardown_env, run_teardown. simpl.
    unfold db_registry. rewrite !lookup_singleton_eq. simpl.
    rewrite lookup_insert_eq.
    destruct (script FixturesTeardown.init) as [res database'] eqn:Hs.
    simpl. split; [done|]. split; [|done].
    by rewrite lookup_alter_eq, lookup_insert_eq.
Qed.



(** The three tests of test_db.py pass, and each leaves an empty
    database behind. *)
Lemma test_db_passes :
  Forall (λ script,
    verdict (run_test db_registry (on_db script)) = Some Passed)
    [FixturesTeardown.test_add_user;
     FixturesTeardown.test_add_existing_user;
     FixturesTeardown.test_delete_user].
Proof.
  repeat constructor;
    rewrite (proj2 (proj2 (run_test_db _)));
    reflexivity.
Qed.

End FixtureProofs.

(** ** Call recorders and mocks *)

Module MockProofs.
Import Mock PyProofs.

Lemma record_history {R} (c : call) (rec : Recorder R) :
  history (snd (record c rec)) = history rec ++ [c].
Proof. unfold record. by destruct (configured rec). Qed.

Lemma assert_called_once_with_single {R} (c expected : call) (rec : Recorder R) :
  history rec = [c] →
  assert_called_once_with expected rec =
    if call_eqb c expected then Ok tt
    else Raise (AssertionMismatch expected [c]).
Proof. intros H. unfold assert_called_once_with. by rewrite H. Qed.

(** C2: assert_called_once_with(args, kwargs) succeeds exactly when the
    history holds one call and that call has the expected positional
    and named arguments; in every other case it fails with an
    AssertionMismatch that carries the expected call and the calls
    actually recorded. In test_save_user_success the assertions on the
    patched connect and on execute are of the first kind. *)
Theorem assert_called_once_with_iff :
  (∀ (R : Type) (rec : Recorder R) (expected : call),
     (assert_called_once_with expected rec = Ok tt ↔
      length (history rec) = 1%nat ∧
      ∃ c, history rec = [c] ∧
           args c = args expected ∧ kwargs c = kwargs expected) ∧
     (assert_called_once_with expected rec = Ok tt ∨
      assert_called_once_with expected rec =
        Raise (AssertionMismatch expected (history rec)))) ∧
  (let w := snd (MockingADatabase.save_user "Alice" 30
                   MockingADatabase.patched) in
   assert_called_once_with (Call [VStr "users.db"] ∅)
     (MockingADatabase.connect w) = Ok tt ∧
   assert_called_once_with
     (Call [VStr "INSERT INTO users (name, age) VALUES (?, ?)";
            VTuple [VStr "Alice"; VInt 30]] ∅)
     (MockingADatabase.execute w) = Ok tt).
Proof.
  split; [|by vm_compute].
  intros R rec expected. unfold assert_called_once_with.
  destruct (history rec) as [|c [|c' h]] eqn:Hh; simpl.
  - split; [|by right]. split; [done|]. by intros [[=] _].
  - destruct (call_eqb c expected) eqn:Heq.
    + apply call_eqb_eq in Heq as ->. split; [|by left].
      split; [|done]. intros _. split; [done|]. by exists expected.
    + split; [|by right]. split; [done|].
      intros [_ (c0 & [= <-] & Ha & Hk)].
      assert (c = expected) as -> by (destruct c, expected; simpl in *; congruence).
      by rewrite (proj2 (call_eqb_eq _ _)) in Heq.
  - split; [|by right]. split; [done|]. by intros [[=] _].
Qed.

(** The assertions of test_save_user_success and of
    test_save_user_database_error hold on the recorders save_user
    leaves behind. *)
Lemma test_save_user_success :
  let '(res, w) := MockingADatabase.save_user "Alice" 30
                     MockingADatabase.patched in
  res = Ok tt ∧
  assert_called_once (MockingADatabase.commit w) = Ok tt ∧
  assert_called_once (MockingADatabase.close w) = Ok tt.
Proof. by vm_compute. Qed.

Lemma test_save_user_database_error :
  let '(res, w) := MockingADatabase.save_user "Bob" 25
                     MockingADatabase.failing_execute in
  res = Raise (Exception "DB write failed") ∧
  assert_called_once_with (Call [VStr "users.db"] ∅)
    (MockingADatabase.connect w) = Ok tt ∧
  assert_called_once (MockingADatabase.execute w) = Ok tt ∧
  history (MockingADatabase.commit w) = [] ∧
  history (MockingADatabase.close w) = [].
Proof. by vm_compute. Qed.

(** *** Mocks with a capability set *)

Lemma allowed_spec (m : Mock) names name :
  spec m = Some names → allowed m name = bool_decide (name ∈ names).
Proof. intros H. unfold allowed. by rewrite H. Qed.

Lemma getattr_refused (m : Mock) name :
  allowed m name = false →
  getattr name m = (Raise (UnknownAttribute name), m).
Proof.
  intros H. unfold getattr, mbind, M_bind, bind, get, raise. by rewrite H.
Qed.

Lemma getattr_allowed (m : Mock) name :
  allowed m name = true →
  ∃ m', getattr name m = (Ok (default (fresh VNone) (attrs m !! name)), m').
Proof.
  intros H. unfold getattr, mbind, M_bind, bind, get, raise, put, ret.
  rewrite H. destruct (attrs m !! name); simpl; eauto.
Qed.

Lemma invoke_refused (m : Mock) name c :
  allowed m name = false →
  invoke name c m = (Raise (UnknownAttribute name), m).
Proof.
  intros H. unfold invoke, mbind, M_bind, bind.
  by rewrite getattr_refused.
Qed.

Lemma invoke_allowed (m : Mock) name c :
  allowed m name = true →
  fst (invoke name c m) =
    fst (record c (default (fresh VNone) (attrs m !! name))).
Proof.
  intros H. unfold invoke, mbind, M_bind, bind.
  destruct (getattr_allowed m name H) as [m' ->].
  destruct (record c _) as [res rec']. by destruct res.
Qed.

Lemma configure_return_value_refused (m : Mock) name v :
  allowed m name = false →
  configure_return_value name v m = (Raise (UnknownAttribute name), m).
Proof.
  intros H. unfold configure_return_value, mbind, M_bind, bind.
  by rewrite getattr_refused.
Qed.

Lemma configure_side_effect_refused (m : Mock) name e :
  allowed m name = false →
  configure_side_effect name e m = (Raise (UnknownAttribute name), m).
Proof.
  intros H. unfold configure_side_effect, mbind, M_bind, bind.
  by rewrite getattr_refused.
Qed.

Lemma configure_return_value_allowed (m : Mock) name v :
  allowed m name = true →
  ∃ m', configure_return_value name v m = (Ok tt, m') ∧
        ∃ rec, attrs m' !! name = Some rec ∧ configured rec = Returns v.
Proof.
  intros H. unfold configure_return_value, mbind, M_bind, bind.
  destruct (getattr_allowed m name H) as [m' ->].
  eexists. split; [reflexivity|]. simpl.
  eexists. by rewrite lookup_insert_eq.
Qed.

Lemma configure_side_effect_allowed (m : Mock) name e :
  allowed m name = true →
  ∃ m', configure_side_effect name e m = (Ok tt, m') ∧
        ∃ rec, attrs m' !! name = Some rec ∧ configured rec = SideEffect e.
Proof.
  intros H. unfold configure_side_effect, mbind, M_bind, bind.
  destruct (getattr_allowed m name H) as [m' ->].
  eexists. split; [reflexivity|]. simpl.
  eexists. by rewrite lookup_insert_eq.
Qed.

(** C3: on a mock built with a capability set, reading, invoking or
    configuring an attribute whose name is not in the set fails at once
    with UnknownAttribute and leaves the mock as it was, while the same
    accesses to a name in the set go through; a mock built with
    spec=APIClient accepts get_user_data and refuses every other
    name. *)
Theorem spec_mock_unknown_attribute :
  (∀ (m : Mock) (names : gset string) (name : string)
     (c : call) (v : value) (e : exn),
     spec m = Some names →
     (name ∉ names →
      getattr name m = (Raise (UnknownAttribute name), m) ∧
      invoke name c m = (Raise (UnknownAttribute name), m) ∧
      configure_return_value name v m = (Raise (UnknownAttribute name), m) ∧
      configure_side_effect name e m = (Raise (UnknownAttribute name), m)) ∧
     (name ∈ names →
      is_ok (fst (getattr name m)) = true ∧
      fst (invoke name c m) =
        fst (record c (default (fresh VNone) (attrs m !! name))) ∧
      fst (configure_return_value name v m) = Ok tt ∧
      fst (configure_side_effect name e m) = Ok tt)) ∧
  (∀ (name : string) (c : call),
     let m := mock (Some MockingClasses.APIClient) in
     is_ok (fst (getattr "get_user_data" m)) = true ∧
     fst (invoke "get_user_data" c m) = Ok VNone ∧
     (name ≠ "get_user_data" →
      getattr name m = (Raise (UnknownAttribute name), m) ∧
      invoke name c m = (Raise (UnknownAttribute name), m))).
Proof.
  split.
  - intros m names name c v e Hspec. split; intros Hname.
    + assert (allowed m name = false) as Hno.
      { rewrite (allowed_spec _ _ _ Hspec). by apply bool_decide_eq_false_2. }
      auto using getattr_refused, invoke_refused,
        configure_return_value_refused, configure_side_effect_refused.
    + assert (allowed m name = true) as Hyes.
      { rewrite (allowed_spec _ _ _ Hspec). by apply bool_decide_eq_true_2. }
      split; [|split; [|split]].
      * by destruct (getattr_allowed m name Hyes) as [m' ->].
      * by apply invoke_allowed.
      * by destruct (configure_return_value_allowed m name v Hyes) as (m' & -> & _).
      * by destruct (configure_side_effect_allowed m name e Hyes) as (m' & -> & _).
  - intros name c m. split; [done|]. split; [done|]. intros Hne.
    assert (allowed m name = false) as Hno.
    { apply bool_decide_eq_false_2. unfold MockingClasses.APIClient.
      by rewrite elem_of_singleton. }
    auto using getattr_refused, invoke_refused.
Qed.

Lemma spec_mock_unknown_attribute_witness :
  let m := mock (Some MockingClasses.APIClient) in
  (getattr "get_user" m = (Raise (UnknownAttribute "get_user"), m) ∧
   invoke "get_user" (Call [VInt 1] ∅) m =
     (Raise (UnknownAttribute "get_user"), m) ∧
   configure_return_value "get_user" VNone m =
     (Raise (UnknownAttribute "get_user"), m) ∧
   configure_side_effect "get_user" (Exception "boom") m =
     (Raise (UnknownAttribute "get_user"), m)) ∧
  (is_ok (fst (getattr "get_user_data" m)) = true ∧
   fst (invoke "get_user_data" (Call [VInt 1] ∅) m) =
     fst (record (Call [VInt 1] ∅)
            (default (fresh VNone) (attrs m !! "get_user_data"))) ∧
   fst (configure_return_value "get_user_data" VNone m) = Ok tt ∧
   fst (configure_side_effect "get_user_data" (Exception "boom") m) = Ok tt).
Proof.
  intros m. split.
  - apply (proj1 (proj1 spec_mock_unknown_attribute m
                    MockingClasses.APIClient "get_user" (Call [VInt 1] ∅)
                    VNone (Exception "boom") eq_refl)).
    unfold MockingClasses.APIClient. rewrite elem_of_singleton. discriminate.
  - apply (proj2 (proj1 spec_mock_unknown_attribute m
                    MockingClasses.APIClient "get_user_data" (Call [VInt 1] ∅)
                    VNone (Exception "boom") eq_refl)).
    unfold MockingClasses.APIClient. by rewrite elem_of_singleton.
Defined.

(** test_get_username: the service upper-cases the name the stand-in
    returns, and the stand-in saw the single call get_user_data(1). *)
Lemma test_get_username :
  let john := VDict {[ "id" := VInt 1; "name" := VStr "John Doe" ]} in
  let '(_, m0) := configure_return_value "get_user_data" john
                    (mock (Some MockingClasses.APIClient)) in
  let '(username, m1) := MockingClasses.get_username (VInt 1) m0 in
  username = Ok "JOHN DOE" ∧
  (rec ← attrs m1 !! "get_user_data";
   Some (assert_called_once_with (Call [VInt 1] ∅) rec)) = Some (Ok tt).
Proof. by vm_compute. Qed.

(** *** The stand-in for requests.get *)

Import MockingAFunction.

Lemma get_weather_200 city (requests_get : Recorder Response) resp body :
  configured requests_get = Returns resp →
  status_code resp = VInt 200 →
  configured (json resp) = Returns body →
  ∃ rg', get_weather city requests_get = (Ok body, rg') ∧
         history rg' =
           history requests_get ++ [Call [VStr (base_url ++ city)%string] ∅].
Proof.
  intros Hc Hs Hj. unfold get_weather, mbind, M_bind, bind, record at 1.
  rewrite Hc, Hs. simpl. unfold call_json, record. simpl. rewrite Hj.
  eexists. split; reflexivity.
Qed.

Lemma get_weather_not_200 city (requests_get : Recorder Response) resp :
  configured requests_get = Returns resp →
  status_code resp ≠ VInt 200 →
  ∃ rg', get_weather city requests_get =
           (Raise (ValueError "City not found or API error"), rg') ∧
         history rg' =
           history requests_get ++ [Call [VStr (base_url ++ city)%string] ∅].
Proof.
  intros Hc Hs. unfold get_weather, mbind, M_bind, bind, record at 1.
  rewrite Hc. destruct (value_eqb _ _) eqn:He.
  - by apply value_eqb_eq in He.
  - unfold raise. eexists. split; reflexivity.
Qed.

(** C7: for every city, when the stand-in for requests.get is fresh and
    returns a response with status_code 200 whose json() is
    {"temp": 20, "condition": "Sunny"}, get_weather(city) returns that
    body and the stand-in has recorded exactly one call, with the single
    argument "http://api.weatherapi.com/v1/" followed by the city; when
    the status code is not 200, get_weather raises. *)
Theorem get_weather_with_stand_in
    (city : string) (requests_get : Recorder Response) (resp : Response) :
  history requests_get = [] →
  configured requests_get = Returns resp →
  (status_code resp = VInt 200 →
   configured (json resp) = Returns sunny →
   ∃ rg',
     get_weather city requests_get = (Ok sunny, rg') ∧
     history rg' =
       [Call [VStr ("http://api.weatherapi.com/v1/" ++ city)%string] ∅] ∧
     assert_called_once_with
       (Call [VStr ("http://api.weatherapi.com/v1/" ++ city)%string] ∅) rg' =
       Ok tt) ∧
  (status_code resp ≠ VInt 200 →
   ∃ e rg', get_weather city requests_get = (Raise e, rg') ∧
            e = ValueError "City not found or API error").
Proof.
  intros Hh Hc. split.
  - intros Hs Hj.
    destruct (get_weather_200 city requests_get resp sunny Hc Hs Hj)
      as (rg' & Hg & Hh').
    rewrite Hh in Hh'. exists rg'. split; [done|]. split; [done|].
    rewrite (assert_called_once_with_single _ _ _ Hh').
    by rewrite (proj2 (call_eqb_eq _ _)).
  - intros Hs.
    destruct (get_weather_not_200 city requests_get resp Hc Hs)
      as (rg' & Hg & _).
    by exists (ValueError "City not found or API error"), rg'.
Qed.

Lemma get_weather_with_stand_in_witness :
  let resp := {| status_code := VInt 200; json := fresh sunny |} in
  let gone := {| status_code := VInt 404; json := fresh VNone |} in
  (∃ rg',
     get_weather "London" (fresh resp) = (Ok sunny, rg') ∧
     history rg' = [Call [VStr "http://api.weatherapi.com/v1/London"] ∅] ∧
     assert_called_once_with
       (Call [VStr "http://api.weatherapi.com/v1/London"] ∅) rg' = Ok tt) ∧
  (∃ e rg', get_weather "Atlantis" (fresh gone) = (Raise e, rg') ∧
            e = ValueError "City not found or API error").
Proof.
  intros resp gone. split.
  - apply (proj1 (get_weather_with_stand_in "London" (fresh resp) resp
                    eq_refl eq_refl)); reflexivity.
  - apply (proj2 (get_weather_with_stand_in "Atlantis" (fresh gone) gone
                    eq_refl eq_refl)). discriminate.
Defined.

Lemma get_weather_api_error :
  fst (get_weather "Atlantis"
         (fresh {| status_code := VInt 404; json := fresh VNone |})) =
  Raise (ValueError "City not found or API error").
Proof. reflexivity. Qed.

End MockProofs.

(** ** The Flask users API *)

Module ApiProofs.
Import Api.

Lemma add_user_with_name_and_email users (d : gmap string value) name email :
  d !! "name" = Some name → d !! "email" = Some email →
  add_user (VDict d) users =
    (Ok {| payload := user_record (Z.of_nat (size users) + 1) name email;
           status := 201 |},
     <[Z.of_nat (size users) + 1 :=
         user_record (Z.of_nat (size users) + 1) name email]> users).
Proof.
  intros Hn He. unfold add_user. simpl.
  rewrite bool_decide_eq_false_2.
  2:{ intros ->. by rewrite lookup_empty in Hn. }
  unfold mbind, M_bind, bind, lift, get, put, ret. simpl.
  rewrite bool_decide_eq_true_2 by (apply elem_of_dom; eauto). simpl.
  rewrite bool_decide_eq_true_2 by (apply elem_of_dom; eauto). simpl.
  rewrite Hn, He. simpl. by rewrite lookup_insert_eq.
Qed.


Lemma add_user_missing_key users (d : gmap string value) :
  d !! "name" = None ∨ d !! "email" = None →
  add_user (VDict d) users = (Ok invalid_input, users).
Proof.
  intros Hmiss. unfold add_user. simpl.
  destruct (bool_decide (d = ∅)); simpl; [done|].
  unfold mbind, M_bind, bind, lift, get, put, ret. simpl.
  destruct (bool_decide ("name" ∈ dom d)) eqn:Hn; simpl; [|done].
  destruct (bool_decide ("email" ∈ dom d)) eqn:He; simpl; [|done].
  apply bool_decide_eq_true_1, elem_of_dom in Hn as [? Hn].
  apply bool_decide_eq_true_1, elem_of_dom in He as [? He].
  destruct Hmiss; congruence.
Qed.

Lemma dense_fresh users : dense users → users !! (Z.of_nat (size users) + 1) = None.
Proof.
  intros Hd. apply eq_None_not_Some. intros Hs. apply Hd in Hs. lia.
Qed.

Lemma dense_insert users v :
  dense users → dense (<[Z.of_nat (size users) + 1 := v]> users).
Proof.
  intros Hd k. rewrite map_size_insert_None by by apply dense_fresh.
  destruct (decide (k = Z.of_nat (size users) + 1)) as [->|Hne].
  - rewrite lookup_insert_eq. split; [lia|eauto].
  - rewrite lookup_insert_ne by done. rewrite (Hd k). lia.
Qed.

Lemma add_user_store data users :
  snd (add_user data users) = users ∨
  ∃ v, snd (add_user data users) = <[Z.of_nat (size users) + 1 := v]> users.
Proof.
  unfold add_user. destruct (truthy data); simpl; [|by left].
  unfold mbind, M_bind, bind, lift, get, put, ret, raise.
  destruct (contains "name" data) as [[]|]; simpl; try by left.
  destruct (contains "email" data) as [[]|]; simpl; try by left.
  destruct (subscript data "name"); simpl; [|by left].
  destruct (subscript data "email"); simpl; [|by left].
  rewrite lookup_insert_eq. right. eauto.
Qed.

Lemma get_user_store user_id users : snd (get_user user_id users) = users.
Proof.
  unfold get_user, mbind, M_bind, bind, get, ret.
  destruct (users !! user_id) as [u|]; simpl; [|done]. by destruct (truthy u).
Qed.

Lemma reachable_dense users : reachable users → dense users.
Proof.
  intros [rqs ->]. induction rqs as [|rq rqs IH] using rev_ind.
  - intros k. simpl. rewrite lookup_empty, map_size_empty.
    split; [by intros [? [=]]|lia].
  - unfold serve_all in *. rewrite foldl_app. simpl.
    destruct rq as [data|user_id]; simpl.
    + destruct (add_user_store data (foldl (λ u rq, snd (serve rq u)) ∅ rqs))
        as [->|[v ->]]; [done|by apply dense_insert].
    + by rewrite get_user_store.
Qed.



(** test_api.py, in file order on the shared store: the POST of
    test_add_user gets id 1, so the POST of test_get_user gets id 2 and
    GET /users/2 finds Bob. *)
Lemma test_api_ids_continue :
  let john := VDict {[ "name" := VStr "John Doe";
                       "email" := VStr "john@email.com" ]} in
  let bob := VDict {[ "name" := VStr "Bob Leck";
                      "email" := VStr "bob@test.com" ]} in
  let users := serve_all [POST_users john; POST_users bob] ∅ in
  fst (get_user 2 users) =
    Ok {| payload := VDict {[ "id" := VInt 2; "name" := VStr "Bob Leck";
                              "email" := VStr "bob@test.com" ]};
          status := 200 |} ∧
  fst (get_user 999 users) = Ok not_found.
Proof. by vm_compute. Qed.

End ApiProofs.

(** ** The in-memory stores: DataBase and UserManager *)

Module DataBaseProofs.
Import FixturesTeardown.

Lemma db_add_user_absent user_id name (db : DataBase) :
  data db !! user_id = None →
  add_user user_id name db = (Ok tt, {| data := <[user_id := name]> (data db) |}).
Proof.
  intros Hno. unfold add_user, mbind, M_bind, bind, get, raise, put.
  rewrite bool_decide_eq_false_2; [done|]. by apply not_elem_of_dom.
Qed.

Lemma db_add_user_present user_id name (db : DataBase) :
  is_Some (data db !! user_id) →
  add_user user_id name db = (Raise (ValueError "User ID already exists"), db).
Proof.
  intros Hin. unfold add_user, mbind, M_bind, bind, get, raise.
  rewrite bool_decide_eq_true_2; [done|]. by apply elem_of_dom.
Qed.

Lemma db_delitem_present user_id (db : DataBase) :
  is_Some (data db !! user_id) →
  delitem user_id db = (Ok tt, {| data := delete user_id (data db) |}).
Proof.
  intros Hin. unfold delitem, mbind, M_bind, bind, get, raise, put.
  rewrite bool_decide_eq_true_2; [done|]. by apply elem_of_dom.
Qed.

Lemma db_delitem_absent user_id (db : DataBase) :
  data db !! user_id = None →
  delitem user_id db = (Raise (KeyError "User ID not found"), db).
Proof.
  intros Hno. unfold delitem, mbind, M_bind, bind, get, raise.
  rewrite bool_decide_eq_false_2; [done|]. by apply not_elem_of_dom.
Qed.

Lemma db_getitem user_id (db : DataBase) :
  getitem user_id db = (Ok (data db !! user_id), db).
Proof. reflexivity. Qed.

(** Adding a user under a free id succeeds; afterwards indexing with
    that id gives the name, and indexing with any other id gives what
    it gave before. *)
Theorem db_add_then_get (db : DataBase) (user_id other : Z) (name : string) :
  data db !! user_id = None →
  ∃ db', add_user user_id name db = (Ok tt, db') ∧
         fst (getitem user_id db') = Ok (Some name) ∧
         (other ≠ user_id → fst (getitem other db') = fst (getitem other db)).
Proof.
  intros Hno. eexists. split; [by apply db_add_user_absent|].
  rewrite !db_getitem. simpl. rewrite lookup_insert_eq. split; [done|].
  intros Hne. by rewrite lookup_insert_ne.
Qed.

Lemma db_add_then_get_witness :
  ∃ db', add_user 1 "Alice" init = (Ok tt, db') ∧
         fst (getitem 1 db') = Ok (Some "Alice") ∧
         (2 ≠ 1 → fst (getitem 2 db') = fst (getitem 2 init)).
Proof. apply (db_add_then_get init 1 2 "Alice"). reflexivity. Defined.

(** Adding under an id that is taken raises ValueError("User ID
    already exists") and changes nothing: the stored name stays. *)
Theorem db_add_existing_unchanged
    (db : DataBase) (user_id : Z) (name stored : string) :
  data db !! user_id = Some stored →
  add_user user_id name db =
    (Raise (ValueError "User ID already exists"), db) ∧
  fst (getitem user_id (snd (add_user user_id name db))) = Ok (Some stored).
Proof.
  intros Hs. rewrite db_add_user_present by eauto. split; [done|].
  rewrite db_getitem. simpl. by rewrite Hs.
Qed.

Lemma db_add_existing_unchanged_witness :
  add_user 1 "Bob" {| data := {[ 1 := "Alice" ]} |} =
    (Raise (ValueError "User ID already exists"),
     {| data := {[ 1 := "Alice" ]} |}) ∧
  fst (getitem 1 (snd (add_user 1 "Bob" {| data := {[ 1 := "Alice" ]} |}))) =
    Ok (Some "Alice").
Proof.
  apply (db_add_existing_unchanged _ 1 "Bob" "Alice"). reflexivity.
Defined.

(** Deleting: a stored id is removed, and only that one; an id that is
    not stored raises KeyError("User ID not found") and the database is
    left as it was. *)
Theorem db_delete (db : DataBase) (user_id other : Z) :
  (is_Some (data db !! user_id) →
   ∃ db', delitem user_id db = (Ok tt, db') ∧
          fst (getitem user_id db') = Ok None ∧
          (other ≠ user_id → fst (getitem other db') = fst (getitem other db))) ∧
  (data db !! user_id = None →
   delitem user_id db = (Raise (KeyError "User ID not found"), db)).
Proof.
  split.
  - intros Hin. eexists. split; [by apply db_delitem_present|].
    rewrite !db_getitem. simpl. rewrite lookup_delete_eq. split; [done|].
    intros Hne. by rewrite lookup_delete_ne.
  - apply db_delitem_absent.
Qed.

Lemma db_delete_witness :
  (∃ db', delitem 1 {| data := {[ 1 := "Alice" ]} |} = (Ok tt, db') ∧
          fst (getitem 1 db') = Ok None ∧
          (2 ≠ 1 → fst (getitem 2 db') =
                   fst (getitem 2 {| data := {[ 1 := "Alice" ]} |}))) ∧
  delitem 1 init = (Raise (KeyError "User ID not found"), init).
Proof.
  split.
  - apply (proj1 (db_delete {| data := {[ 1 := "Alice" ]} |} 1 2)).
    simpl. rewrite lookup_singleton_eq. by eexists.
  - apply (proj2 (db_delete init 1 2)). reflexivity.
Defined.

(** Adding a user under a free id and deleting it again gives back the
    database one started from. *)
Theorem db_add_delete_round_trip (db : DataBase) (user_id : Z) (name : string) :
  data db !! user_id = None →
  (add_user user_id name;; delitem user_id) db = (Ok tt, db).
Proof.
  intros Hno. unfold mbind, M_bind, bind at 1.
  rewrite db_add_user_absent by done.
  rewrite db_delitem_present by (simpl; rewrite lookup_insert_eq; eauto).
  simpl. rewrite delete_insert_eq, delete_id by done. by destruct db.
Qed.

Lemma db_add_delete_round_trip_witness :
  (add_user 1 "Alice";; delitem 1) init = (Ok tt, init).
Proof. apply (db_add_delete_round_trip init 1 "Alice"). reflexivity. Defined.

End DataBaseProofs.

Module UserManagerProofs.
Import FixturesSetup FixturesSetupProofs Scripts.

(** A successful add_user is visible through indexing, and other
    usernames are not affected. *)
Theorem add_user_then_getitem
    (m : UserManager) (username other email : string) :
  users m !! username = None →
  ∃ m', add_user username email m = (Ok true, m') ∧
        fst (getitem username m') = Ok (Some email) ∧
        (other ≠ username → fst (getitem other m') = fst (getitem other m)).
Proof.
  intros Hno. eexists. split; [by apply add_user_absent|].
  unfold getitem, mbind, M_bind, bind, get, ret. simpl.
  rewrite lookup_insert_eq. split; [done|]. intros Hne.
  by rewrite lookup_insert_ne.
Qed.

Lemma add_user_then_getitem_witness :
  ∃ m', add_user "john_doe" "john@example.com" init = (Ok true, m') ∧
        fst (getitem "john_doe" m') = Ok (Some "john@example.com") ∧
        ("jane" ≠ "john_doe" →
         fst (getitem "jane" m') = fst (getitem "jane" init)).
Proof.
  apply (add_user_then_getitem init "john_doe" "jane" "john@example.com").
  reflexivity.
Defined.

Lemma exec_all_cons c cs m : exec_all (c :: cs) m = exec_all cs (exec c m).
Proof. reflexivity. Qed.

(** What a script leaves under a username, from any starting manager:
    what was there already, else the email of the first add_user for
    that name. *)
Lemma exec_all_lookup cs m username :
  users (exec_all cs m) !! username =
    match users m !! username with
    | Some e => Some e
    | None => first_email username cs
    end.
Proof.
  revert m. induction cs as [|c cs IH]; intros m.
  - simpl. by destruct (users m !! username).
  - rewrite exec_all_cons, IH. destruct c as [u e|u]; simpl; [|done].
    destruct (users m !! u) as [e'|] eqn:Hu.
    + rewrite add_user_present by eauto. simpl.
      case_bool_decide as Heq; [|done]. subst u. by rewrite Hu.
    + rewrite add_user_absent by done. simpl.
      case_bool_decide as Heq.
      * subst u. by rewrite lookup_insert_eq, Hu.
      * by rewrite lookup_insert_ne.
Qed.

(** The first registration wins: after any sequence of calls on a fresh
    manager, indexing with a username gives the email of the first
    add_user call for that name, whatever later calls tried to store,
    and None when there was no such call. *)
Theorem first_registration_wins (cs : list call) (username : string) :
  fst (getitem username (exec_all cs init)) = Ok (first_email username cs).
Proof.
  unfold getitem, mbind, M_bind, bind, get, ret. simpl.
  by rewrite exec_all_lookup.
Qed.

End UserManagerProofs.

(** ** More on the Flask users API *)

Module ApiMoreProofs.
Import Api ApiProofs ApiTests PyProofs.


Lemma add_user_non_dict (data : value) (users : gmap Z value) :
  (∀ d, data ≠ VDict d) →
  snd (add_user data users) = users ∧
  (fst (add_user data users) = Ok invalid_input ∨
   ∃ msg, fst (add_user data users) = Raise (TypeError msg)).
Proof.
  intros Hd. unfold add_user.
  destruct (truthy data) eqn:Ht; simpl; [|by eauto].
  unfold mbind, M_bind, bind, lift, get, put, ret.
  destruct data as [|b|z|s|l|l|d]; simpl in *; try by eauto.
  - destruct (str_contains "name" s); simpl; [|by eauto].
    destruct (str_contains "email" s); simpl; by eauto.
  - destruct (existsb _ l); simpl; [|by eauto].
    destruct (existsb _ l); simpl; by eauto.
  - destruct (existsb _ l); simpl; [|by eauto].
    destruct (existsb _ l); simpl; by eauto.
  - by destruct (Hd d).
Qed.

(** A body that is not a JSON object never creates a user: the view
    answers 400 or raises TypeError, and the store is left as it was. *)
Theorem add_user_non_object (data : value) (users : gmap Z value) :
  (∀ d, data ≠ VDict d) →
  snd (add_user data users) = users ∧
  (fst (add_user data users) = Ok invalid_input ∨
   ∃ msg, fst (add_user data users) = Raise (TypeError msg)).
Proof. apply add_user_non_dict. Qed.

Lemma add_user_non_object_witness :
  snd (add_user (VList [VStr "name"; VStr "email"]) ∅) = ∅ ∧
  (fst (add_user (VList [VStr "name"; VStr "email"]) ∅) = Ok invalid_input ∨
   ∃ msg, fst (add_user (VList [VStr "name"; VStr "email"]) ∅) =
            Raise (TypeError msg)).
Proof.
  apply (add_user_non_object (VList [VStr "name"; VStr "email"]) ∅).
  intros d. discriminate.
Defined.



(** The store changes only when the view answers 201. *)
Theorem add_user_changes_only_on_201 (data : value) (users : gmap Z value) :
  (∀ user, fst (add_user data users) ≠ Ok {| payload := user; status := 201 |}) →
  snd (add_user data users) = users.
Proof.
  intros Hno. destruct data as [|b|z|s|l|l|d];
    try (apply add_user_non_dict; by intros ?).
  destruct (d !! "name") as [name|] eqn:Hn;
    [destruct (d !! "email") as [email|] eqn:He|].
  - rewrite (add_user_with_name_and_email _ _ _ _ Hn He) in Hno.
    by destruct (Hno (user_record (Z.of_nat (size users) + 1) name email)).
  - by rewrite add_user_missing_key by by right.
  - by rewrite add_user_missing_key by by left.
Qed.

Lemma add_user_changes_only_on_201_witness :
  snd (add_user (VDict {[ "name" := VStr "Jane Doe" ]}) ∅) = ∅.
Proof.
  apply (add_user_changes_only_on_201 (VDict {[ "name" := VStr "Jane Doe" ]}) ∅).
  intros user. vm_compute. discriminate.
Defined.

(** *** Invariants of the shared store *)

Lemma records_kept_insert users name email :
  records_kept users →
  records_kept (<[Z.of_nat (size users) + 1 :=
                    user_record (Z.of_nat (size users) + 1) name email]> users).
Proof.
  intros Hk k v. destruct (decide (k = Z.of_nat (size users) + 1)) as [->|Hne].
  - rewrite lookup_insert_eq. intros [= <-]. eauto.
  - rewrite lookup_insert_ne by done. apply Hk.
Qed.

Lemma add_user_store_record data users :
  snd (add_user data users) = users ∨
  ∃ name email,
    snd (add_user data users) =
      <[Z.of_nat (size users) + 1 :=
          user_record (Z.of_nat (size users) + 1) name email]> users.
Proof.
  destruct data as [|b|z|s|l|l|d];
    try (left; apply add_user_non_dict; by intros ?).
  destruct (d !! "name") as [name|] eqn:Hn;
    [destruct (d !! "email") as [email|] eqn:He|].
  - right. exists name, email.
    by rewrite (add_user_with_name_and_email _ _ _ _ Hn He).
  - left. by rewrite add_user_missing_key by by right.
  - left. by rewrite add_user_missing_key by by left.
Qed.

Lemma serve_all_snoc rqs rq users :
  serve_all (rqs ++ [rq]) users = snd (serve rq (serve_all rqs users)).
Proof. unfold serve_all. by rewrite foldl_app. Qed.

Lemma reachable_records_kept users : reachable users → records_kept users.
Proof.
  intros [rqs ->]. induction rqs as [|rq rqs IH] using rev_ind.
  - intros k v. change (serve_all [] ∅) with (∅ : gmap Z value).
    by rewrite lookup_empty.
  - rewrite serve_all_snoc. destruct rq as [data|user_id]; simpl.
    + destruct (add_user_store_record data (serve_all rqs ∅))
        as [->|(name & email & ->)]; [done|by apply records_kept_insert].
    + by rewrite get_user_store.
Qed.

Lemma reachable_step users rq : reachable users → reachable (snd (serve rq users)).
Proof. intros [rqs ->]. exists (rqs ++ [rq]). by rewrite serve_all_snoc. Qed.

Lemma truthy_user_record k name email : truthy (user_record k name email) = true.
Proof.
  unfold user_record. simpl. rewrite bool_decide_eq_false_2; [done|].
  intros Hempty. apply (f_equal (λ m : gmap string value, m !! "id")) in Hempty.
  by rewrite lookup_insert_eq, lookup_empty in Hempty.
Qed.

Lemma subscript_user_record_id k name email :
  subscript (user_record k name email) "id" = Ok (VInt k).
Proof. unfold user_record. simpl. by rewrite lookup_insert_eq. Qed.

(** In every store the application can reach, GET /users/k answers 200
    exactly for the ids 1, ..., len(users), with a record whose "id" is
    k, and answers 404 with {"error": "User not found"} for every other
    k; the store is not changed by it. *)
Theorem get_user_on_reachable (users : gmap Z value) (k : Z) :
  reachable users →
  snd (get_user k users) = users ∧
  (1 ≤ k ≤ Z.of_nat (size users) →
   ∃ user, fst (get_user k users) = Ok {| payload := user; status := 200 |} ∧
           users !! k = Some user ∧ subscript user "id" = Ok (VInt k)) ∧
  (¬ (1 ≤ k ≤ Z.of_nat (size users)) →
   fst (get_user k users) =
     Ok {| payload := VDict {[ "error" := VStr "User not found" ]};
           status := 404 |}).
Proof.
  intros Hr. pose proof (reachable_dense _ Hr) as Hd.
  pose proof (reachable_records_kept _ Hr) as Hk.
  split; [apply get_user_store|]. unfold get_user, mbind, M_bind, bind, get, ret.
  split.
  - intros Hin. apply Hd in Hin as [user Hu]. rewrite Hu.
    destruct (Hk _ _ Hu) as (name & email & ->).
    rewrite truthy_user_record. simpl. eexists. split; [done|]. split; [done|].
    apply subscript_user_record_id.
  - intros Hout. destruct (users !! k) as [user|] eqn:Hu; [|done].
    destruct Hout. apply Hd. eauto.
Qed.

Lemma get_user_on_reachable_witness :
  let users := serve_all [POST_users bob] ∅ in
  snd (get_user 1 users) = users ∧
  (1 ≤ 1 ≤ Z.of_nat (size users) →
   ∃ user, fst (get_user 1 users) = Ok {| payload := user; status := 200 |} ∧
           users !! 1 = Some user ∧ subscript user "id" = Ok (VInt 1)) ∧
  (¬ (1 ≤ 1 ≤ Z.of_nat (size users)) →
   fst (get_user 1 users) =
     Ok {| payload := VDict {[ "error" := VStr "User not found" ]};
           status := 404 |}).
Proof.
  intros users. apply (get_user_on_reachable users 1).
  by exists [POST_users bob].
Defined.

(** Nothing that was stored is ever changed or removed: whatever
    requests follow, a stored user stays under its id as it is. *)
Theorem stored_users_persist
    (users : gmap Z value) (rqs : list request) (k : Z) (user : value) :
  reachable users →
  users !! k = Some user →
  serve_all rqs users !! k = Some user.
Proof.
  intros Hr Hu. induction rqs as [|rq rqs IH] using rev_ind; [done|].
  rewrite serve_all_snoc.
  assert (reachable (serve_all rqs users)) as Hr'.
  { destruct Hr as [rqs0 ->]. exists (rqs0 ++ rqs).
    unfold serve_all. by rewrite foldl_app. }
  destruct rq as [data|user_id]; simpl.
  - destruct (add_user_store_record data (serve_all rqs users))
      as [->|(name & email & ->)]; [done|].
    rewrite lookup_insert_ne; [done|]. intros <-.
    pose proof (dense_fresh _ (reachable_dense _ Hr')). congruence.
  - by rewrite get_user_store.
Qed.

Lemma stored_users_persist_witness :
  serve_all [POST_users bob; GET_users 1; POST_users bob]
    (serve_all [POST_users bob] ∅) !! 1 = Some (bob_stored 1).
Proof.
  apply (stored_users_persist (serve_all [POST_users bob] ∅)
           [POST_users bob; GET_users 1; POST_users bob] 1 (bob_stored 1)).
  - by exists [POST_users bob].
  - by vm_compute.
Defined.

(** test_get_user depends on what ran before it on the shared store: it
    passes exactly when its POST lands on id 2, that is when one user
    was stored before, or when Bob's record is already stored under
    id 2; on the empty store it fails. *)
Theorem test_get_user_order_dependent (users : gmap Z value) :
  reachable users →
  (fst (test_get_user users) = Ok tt ↔
   size users = 1%nat ∨ users !! 2 = Some (bob_stored 2)) ∧
  fst (test_get_user ∅) = Raise (AssertionError "assert").
Proof.
  intros Hr. split; [|by vm_compute].
  pose proof (reachable_dense _ Hr) as Hd.
  pose proof (reachable_records_kept _ Hr) as Hk.
  unfold test_get_user, serve, bob.
  rewrite (bind_ok _ _ _ _ _
             (add_user_with_name_and_email users
                {[ "name" := VStr "Bob Leck"; "email" := VStr "bob@test.com" ]}
                (VStr "Bob Leck") (VStr "bob@test.com")
                ltac:(by vm_compute) ltac:(by vm_compute))).
  fold (bob_stored (Z.of_nat (size users) + 1)).
  set (users' := <[Z.of_nat (size users) + 1 :=
                     bob_stored (Z.of_nat (size users) + 1)]> users).
  destruct (users' !! 2) as [user|] eqn:Hu.
  - assert (∃ name email, user = user_record 2 name email)
      as (name & email & ->).
    { subst users'. destruct (decide (Z.of_nat (size users) + 1 = 2)) as [Heq|Hne].
      - rewrite Heq, lookup_insert_eq in Hu. injection Hu as <-.
        unfold bob_stored. eauto.
      - rewrite lookup_insert_ne in Hu by done. eauto. }
    assert (get_user 2 users' =
              (Ok {| payload := user_record 2 name email; status := 200 |},
               users')) as Hget.
    { unfold get_user, mbind, M_bind, bind, get, ret.
      by rewrite Hu, truthy_user_record. }
    rewrite (bind_ok _ _ _ _ _ Hget).
    rewrite (bind_ok _ _ _ tt users') by done. cbn [payload].
    destruct (value_eqb (user_record 2 name email) (bob_stored 2)) eqn:Hv.
    + apply value_eqb_eq in Hv. rewrite Hv in Hu. split; [intros _|done].
      subst users'. destruct (decide (Z.of_nat (size users) + 1 = 2)) as [Heq|Hne].
      * left. lia.
      * right. by rewrite lookup_insert_ne in Hu.
    + split; [done|]. intros Hcase. exfalso.
      assert (users' !! 2 = Some (bob_stored 2)) as Hb.
      { subst users'. destruct Hcase as [Hsz|Hsto].
        - replace (Z.of_nat (size users) + 1) with 2 by lia.
          apply lookup_insert_eq.
        - destruct (decide (Z.of_nat (size users) + 1 = 2)) as [Heq|Hne].
          + rewrite Heq. apply lookup_insert_eq.
          + by rewrite lookup_insert_ne. }
      rewrite Hu in Hb.
      assert (user_record 2 name email = bob_stored 2) as Hb' by congruence.
      by rewrite Hb', value_eqb_refl in Hv.
  - assert (get_user 2 users' = (Ok not_found, users')) as Hget.
    { unfold get_user, mbind, M_bind, bind, get, ret. by rewrite Hu. }
    rewrite (bind_ok _ _ _ _ _ Hget).
    rewrite (bind_raise _ _ _ (AssertionError "assert") users') by done.
    split; [done|]. intros Hcase. exfalso. subst users'.
    destruct Hcase as [Hsz|Hsto].
    + replace (Z.of_nat (size users) + 1) with 2 in Hu by lia.
      by rewrite lookup_insert_eq in Hu.
    + destruct (decide (Z.of_nat (size users) + 1 = 2)) as [Heq|Hne].
      * rewrite Heq, lookup_insert_eq in Hu. done.
      * rewrite lookup_insert_ne in Hu by done. congruence.
Qed.

Lemma test_get_user_order_dependent_witness :
  (fst (test_get_user (serve_all [POST_users bob] ∅)) = Ok tt ↔
   size (serve_all [POST_users bob] ∅) = 1%nat ∨
   serve_all [POST_users bob] ∅ !! 2 = Some (bob_stored 2)) ∧
  fst (test_get_user ∅) = Raise (AssertionError "assert").
Proof.
  apply (test_get_user_order_dependent (serve_all [POST_users bob] ∅)).
  by exists [POST_users bob].
Defined.

End ApiMoreProofs.

(** ** More on the functions under test doubles *)

Module SaveUserProofs.
Import Mock MockingADatabase SaveUserCalls.

(** When every stand-in returns, save_user returns, and each of
    connect, cursor, execute, commit and close has received exactly one
    more call: connect the file name, execute the INSERT statement with
    the pair (name, age), the others no argument. *)
Theorem save_user_calls (name : string) (age : Z) (w : Sqlite) :
  configured (connect w) = Returns tt →
  configured (cursor w) = Returns tt →
  configured (execute w) = Returns tt →
  configured (commit w) = Returns tt →
  configured (close w) = Returns tt →
  ∃ w', save_user name age w = (Ok tt, w') ∧
        history (connect w') = history (connect w) ++ [Call [VStr "users.db"] ∅] ∧
        history (cursor w') = history (cursor w) ++ [Call [] ∅] ∧
        history (execute w') = history (execute w) ++ [insert_call name age] ∧
        history (commit w') = history (commit w) ++ [Call [] ∅] ∧
        history (close w') = history (close w) ++ [Call [] ∅].
Proof.
  intros H1 H2 H3 H4 H5.
  unfold save_user, mbind, M_bind, bind, call_connect, call_cursor,
    call_execute, call_commit, call_close, record.
  repeat (rewrite ?H1, ?H2, ?H3, ?H4, ?H5; cbn [connect cursor execute commit close history configured]).
  eexists. split; [reflexivity|]. done.
Qed.

Lemma save_user_calls_witness :
  ∃ w', save_user "Alice" 30 patched = (Ok tt, w') ∧
        history (connect w') = history (connect patched) ++ [Call [VStr "users.db"] ∅] ∧
        history (cursor w') = history (cursor patched) ++ [Call [] ∅] ∧
        history (execute w') = history (execute patched) ++ [insert_call "Alice" 30] ∧
        history (commit w') = history (commit patched) ++ [Call [] ∅] ∧
        history (close w') = history (close patched) ++ [Call [] ∅].
Proof. apply (save_user_calls "Alice" 30 patched); reflexivity. Defined.

(** When execute fails, save_user raises the same error after
    connecting and opening a cursor, and neither commit nor close is
    called: the connection is left open. *)
Theorem save_user_execute_fails (name : string) (age : Z) (w : Sqlite) (e : exn) :
  configured (connect w) = Returns tt →
  configured (cursor w) = Returns tt →
  configured (execute w) = SideEffect e →
  ∃ w', save_user name age w = (Raise e, w') ∧
        history (connect w') = history (connect w) ++ [Call [VStr "users.db"] ∅] ∧
        history (execute w') = history (execute w) ++ [insert_call name age] ∧
        commit w' = commit w ∧ close w' = close w.
Proof.
  intros H1 H2 H3.
  unfold save_user, mbind, M_bind, bind, call_connect, call_cursor,
    call_execute, record.
  repeat (rewrite ?H1, ?H2, ?H3; cbn [connect cursor execute commit close history configured]).
  eexists. split; [reflexivity|]. done.
Qed.

Lemma save_user_execute_fails_witness :
  ∃ w', save_user "Bob" 25 failing_execute =
          (Raise (Exception "DB write failed"), w') ∧
        history (connect w') =
          history (connect failing_execute) ++ [Call [VStr "users.db"] ∅] ∧
        history (execute w') =
          history (execute failing_execute) ++ [insert_call "Bob" 25] ∧
        commit w' = commit failing_execute ∧ close w' = close failing_execute.
Proof.
  apply (save_user_execute_fails "Bob" 25 failing_execute
           (Exception "DB write failed")); reflexivity.
Defined.

(** When connecting fails, nothing else is touched. *)
Theorem save_user_connect_fails (name : string) (age : Z) (w : Sqlite) (e : exn) :
  configured (connect w) = SideEffect e →
  ∃ w', save_user name age w = (Raise e, w') ∧
        cursor w' = cursor w ∧ execute w' = execute w ∧
        commit w' = commit w ∧ close w' = close w.
Proof.
  intros H1. unfold save_user, mbind, M_bind, bind, call_connect, record.
  rewrite H1. eexists. split; [reflexivity|]. done.
Qed.

Lemma save_user_connect_fails_witness :
  let w := {| connect := set_side_effect (Exception "no database") (fresh tt);
              cursor := fresh tt; execute := fresh tt; commit := fresh tt;
              close := fresh tt |} in
  ∃ w', save_user "Bob" 25 w = (Raise (Exception "no database"), w') ∧
        cursor w' = cursor w ∧ execute w' = execute w ∧
        commit w' = commit w ∧ close w' = close w.
Proof.
  intros w. apply (save_user_connect_fails "Bob" 25 w (Exception "no database")).
  reflexivity.
Defined.

End SaveUserProofs.

Module GetWeatherProofs.
Import Mock MockingAFunction PyProofs.

(** Whatever the stand-in is configured to do, get_weather calls it
    exactly once, with the URL for the city; an error raised by the
    stand-in comes out of get_weather unchanged. *)
Theorem get_weather_one_request (city : string) (requests_get : Recorder Response) :
  history (snd (get_weather city requests_get)) =
    history requests_get ++ [Call [VStr (base_url ++ city)%string] ∅] ∧
  (∀ e, configured requests_get = SideEffect e →
        fst (get_weather city requests_get) = Raise e).
Proof.
  split.
  - unfold get_weather, mbind, M_bind, bind, record at 1.
    destruct (configured requests_get) as [resp|e]; [|done].
    destruct (value_eqb _ _); [|done].
    unfold call_json. by destruct (record _ _).
  - intros e He. unfold get_weather, mbind, M_bind, bind, record at 1.
    by rewrite He.
Qed.

Lemma get_weather_one_request_witness :
  fst (get_weather "London"
         (set_side_effect (Exception "network down")
            (fresh {| status_code := VInt 200; json := fresh sunny |}))) =
  Raise (Exception "network down").
Proof.
  apply (proj2 (get_weather_one_request "London"
                  (set_side_effect (Exception "network down")
                     (fresh {| status_code := VInt 200; json := fresh sunny |})))
           (Exception "network down")).
  reflexivity.
Defined.

Lemma get_weather_eval city (requests_get : Recorder Response) resp :
  configured requests_get = Returns resp →
  get_weather city requests_get =
    let called := {| history := history requests_get ++
                                  [Call [VStr (base_url ++ city)%string] ∅];
                     configured := Returns resp |} in
    if value_eqb (status_code resp) (VInt 200) then call_json resp called
    else (Raise (ValueError "City not found or API error"), called).
Proof.
  intros Hc. unfold get_weather, mbind, M_bind, bind, record at 1.
  rewrite Hc. by destruct (value_eqb _ _).
Qed.

(** response.json() is called once when the status is 200, and its
    outcome, value or error, is that of get_weather; with any other
    status it is not called at all. *)
Theorem get_weather_json_calls
    (city : string) (requests_get : Recorder Response) (resp : Response) :
  configured requests_get = Returns resp →
  (status_code resp = VInt 200 →
   ∃ resp', configured (snd (get_weather city requests_get)) = Returns resp' ∧
            history (json resp') = history (json resp) ++ [Call [] ∅] ∧
            fst (get_weather city requests_get) =
              match configured (json resp) with
              | Returns body => Ok body
              | SideEffect e => Raise e
              end) ∧
  (status_code resp ≠ VInt 200 →
   configured (snd (get_weather city requests_get)) = Returns resp).
Proof.
  intros Hc. rewrite (get_weather_eval _ _ _ Hc). cbv zeta. split.
  - intros ->. rewrite value_eqb_refl. unfold call_json, record.
    destruct (configured (json resp)); simpl;
      (eexists; split; [reflexivity|]; done).
  - intros Hs. destruct (value_eqb _ _) eqn:Hv; [|done].
    by apply value_eqb_eq in Hv.
Qed.

Lemma get_weather_json_calls_witness :
  let resp := {| status_code := VInt 200; json := fresh sunny |} in
  ∃ resp', configured (snd (get_weather "London" (fresh resp))) = Returns resp' ∧
           history (json resp') = history (json resp) ++ [Call [] ∅] ∧
           fst (get_weather "London" (fresh resp)) =
             match configured (json resp) with
             | Returns body => Ok body
             | SideEffect e => Raise e
             end.
Proof.
  intros resp.
  apply (proj1 (get_weather_json_calls "London" (fresh resp) resp eq_refl)).
  reflexivity.
Defined.

End GetWeatherProofs.

Module ServiceProofs.
Import Mock MockingClasses Service PyProofs MockProofs.


(** One call of the generic service on a mock client. *)
Lemma get_username_is_generic user_id :
  get_username user_id =
    get_username_with (λ uid, invoke "get_user_data" (Call [uid] ∅)) user_id.
Proof. reflexivity. Qed.





(** *** APIClient.get_user_data *)

Lemma get_user_data_eval user_id (requests_get : Recorder HttpResponse) resp :
  configured requests_get = Returns resp →
  get_user_data user_id requests_get =
    let called := {| history := history requests_get ++
                                  [Call [VStr (user_url user_id)] ∅];
                     configured := Returns resp |} in
    if value_eqb (status_code resp) (VInt 200) then call_json resp called
    else (call_raise_for_status resp;; ret VNone) called.
Proof.
  intros Hc. unfold get_user_data, mbind, M_bind, bind at 1, record at 1.
  rewrite Hc. by destruct (value_eqb _ _).
Qed.

Lemma get_user_data_history user_id (requests_get : Recorder HttpResponse) :
  history (snd (get_user_data user_id requests_get)) =
    history requests_get ++ [Call [VStr (user_url user_id)] ∅].
Proof.
  unfold get_user_data, mbind, M_bind, bind, record at 1.
  destruct (configured requests_get) as [resp|e]; [|done].
  destruct (value_eqb _ _).
  - unfold call_json. by destruct (record _ _).
  - unfold call_raise_for_status. destruct (record _ _) as [[]].
    + done.
    + done.
Qed.

(** get_user_data sends one GET, to a URL that is different for every
    user id. With status 200 it returns what json() returns and does not
    call raise_for_status; with any other status it calls
    raise_for_status once and never json(), passes on the error if
    there is one, and returns None if there is none. *)
Theorem get_user_data_outcomes
    (user_id : Z) (requests_get : Recorder HttpResponse) (resp : HttpResponse) :
  configured requests_get = Returns resp →
  history (snd (get_user_data user_id requests_get)) =
    history requests_get ++ [Call [VStr (user_url user_id)] ∅] ∧
  (∀ other, user_url other = user_url user_id → other = user_id) ∧
  (status_code resp = VInt 200 →
   ∃ resp', configured (snd (get_user_data user_id requests_get)) = Returns resp' ∧
            raise_for_status resp' = raise_for_status resp ∧
            history (json resp') = history (json resp) ++ [Call [] ∅] ∧
            fst (get_user_data user_id requests_get) =
              match configured (json resp) with
              | Returns body => Ok body
              | SideEffect e => Raise e
              end) ∧
  (status_code resp ≠ VInt 200 →
   ∃ resp', configured (snd (get_user_data user_id requests_get)) = Returns resp' ∧
            json resp' = json resp ∧
            history (raise_for_status resp') =
              history (raise_for_status resp) ++ [Call [] ∅] ∧
            fst (get_user_data user_id requests_get) =
              match configured (raise_for_status resp) with
              | Returns _ => Ok VNone
              | SideEffect e => Raise e
              end).
Proof.
  intros Hc. split; [apply get_user_data_history|]. split.
  { intros other Hu. unfold user_url in Hu.
    apply (inj (String.append _)) in Hu. by apply (inj pretty) in Hu. }
  rewrite (get_user_data_eval _ _ _ Hc). cbv zeta. split.
  - intros ->. rewrite value_eqb_refl.
    unfold call_json, with_response, record.
    destruct (configured (json resp)); simpl;
      (eexists; split; [reflexivity|]; done).
  - intros Hs. destruct (value_eqb _ _) eqn:Hv.
    { by apply value_eqb_eq in Hv. }
    unfold mbind, M_bind, bind, call_raise_for_status, with_response, record, ret.
    destruct (configured (raise_for_status resp)) as [[]|e]; simpl;
      (eexists; split; [reflexivity|]; done).
Qed.

Lemma get_user_data_outcomes_witness :
  let resp := {| status_code := VInt 204; json := fresh VNone;
                 raise_for_status := fresh tt |} in
  ∃ resp', configured (snd (get_user_data 7 (fresh resp))) = Returns resp' ∧
           json resp' = json resp ∧
           history (raise_for_status resp') =
             history (raise_for_status resp) ++ [Call [] ∅] ∧
           fst (get_user_data 7 (fresh resp)) =
             match configured (raise_for_status resp) with
             | Returns _ => Ok VNone
             | SideEffect e => Raise e
             end.
Proof.
  intros resp.
  apply (proj2 (proj2 (proj2 (get_user_data_outcomes 7 (fresh resp) resp eq_refl)))).
  discriminate.
Defined.




End ServiceProofs.

(** ** is_prime on every int a float represents exactly *)

Module PrimeProofs.
Import Binary64 ParametrizedTesting FloatProofs.

(** *** Trial division up to the square root *)




(** *** The bound [int(n ** 0.5)] *)











End PrimeProofs.

(** ** More on the simple functions *)

Module SimpleMoreProofs.
Import Binary64 SimpleFunctions SimpleFunctionsAdd FloatProofs.



Lemma num_is_zero_iff b :
  num_is_zero b = true ↔ b = PyInt 0 ∨ ∃ s, b = PyFloat (S754_zero s).
Proof.
  destruct b as [n|x]; simpl.
  - rewrite Z.eqb_eq. split; [intros ->; by left|].
    intros [H|[s H]]; [by injection H|discriminate].
  - split.
    + destruct x as [s|s| |s m e]; try done; [eauto|by destruct s|by destruct s].
    + intros [H|[s H]]; [discriminate|]. injection H as ->. done.
Qed.

(** The guard of divide catches every zero divisor and nothing else: it
    fires for the int 0 and for the floats 0.0 and -0.0, and not for
    NaN; and divide never raises ZeroDivisionError. *)
Theorem divide_guard (a b : num) :
  (divide a b = Raise (ValueError "Cannot divide by zero") ↔
   b = PyInt 0 ∨ ∃ s, b = PyFloat (S754_zero s)) ∧
  (∀ msg, divide a b ≠ Raise (ZeroDivisionError msg)).
Proof.
  rewrite <- num_is_zero_iff. unfold divide.
  destruct (num_is_zero b) eqn:Hb.
  - split; [done|]. by intros msg.
  - destruct (truediv_outcome a b Hb) as [[q Hq]|[Hq|Hq]]; rewrite Hq;
      (split; [done|by intros msg]).
Qed.

End SimpleMoreProofs.

